(** * The batch endpoint of [app/api/process/route.ts]

    A shallow embedding of the request handler [POST], of the per-item
    worker [runGeneration] and of [parseJsonArray], together with the
    properties of the handler that the specification states.

    Strings are [string]s whose characters are read as code units in the
    Latin-1 range.  The calls that leave the file (prompt construction,
    base64 encoding, the two image generators, the validator, the UUID
    source, the console) are answered by an [Extern] record and are written
    to a log, so that a statement can speak about which calls were made, in
    which order and with which arguments. *)

From Stdlib Require Import String Ascii List Bool Arith NArith Lia QArith DecimalString.
Import ListNotations.
#[local] Set Warnings "-register-all".
Local Close Scope Q_scope.
Local Open Scope nat_scope.
Local Open Scope list_scope.
Local Open Scope string_scope.

(** ** Strings as the runtime treats them *)

Module JsString.

(** White space and line terminators removed by [String.prototype.trim],
    restricted to code units below 256: TAB, LF, VT, FF, CR, SP, NBSP. *)
Definition isWhiteSpace (c : ascii) : bool :=
  match nat_of_ascii c with
  | 9 | 10 | 11 | 12 | 13 | 32 | 160 => true
  | _ => false
  end.

Fixpoint trimStart (s : string) : string :=
  match s with
  | EmptyString => EmptyString
  | String c r => if isWhiteSpace c then trimStart r else s
  end.

Fixpoint trimEnd (s : string) : string :=
  match s with
  | EmptyString => EmptyString
  | String c r =>
      match trimEnd r with
      | EmptyString => if isWhiteSpace c then EmptyString else String c EmptyString
      | r' => String c r'
      end
  end.

(** [s.trim()] *)
Definition trim (s : string) : string := trimEnd (trimStart s).

(** [s.split(sep)] for a separator of one code unit: the pieces between
    the separators, an empty string giving one empty piece. *)
Fixpoint split (sep : ascii) (s : string) : list string :=
  match s with
  | EmptyString => [EmptyString]
  | String c r =>
      if Ascii.eqb c sep then EmptyString :: split sep r
      else match split sep r with
           | [] => [String c EmptyString]
           | piece :: pieces => String c piece :: pieces
           end
  end.

(** [Boolean(s)] on a string: the empty string is the only falsy one. *)
Definition truthy (s : string) : bool :=
  match s with
  | EmptyString => false
  | String _ _ => true
  end.

(** [a || b] on strings. *)
Definition or_else (a b : string) : string := if truthy a then a else b.

(** [xs.join(sep)] on strings. *)
Fixpoint join (sep : string) (xs : list string) : string :=
  match xs with
  | [] => EmptyString
  | [x] => x
  | x :: rest => x ++ sep ++ join sep rest
  end.

Definition allWhiteSpace (s : string) : bool :=
  forallb isWhiteSpace (list_ascii_of_string s).

End JsString.

(** ** JSON values and their conversion to strings *)

Section Json.

(** The runtime's numbers; only their rendering by [String] is used. *)
Variable Num : Type.

Inductive Json : Type :=
| JNull
| JBool (b : bool)
| JNumber (n : Num)
| JString (s : string)
| JArray (items : list Json)
| JObject (fields : list (string * Json)).

Variable Number_toString : Num -> string.

(** [String(v)] for a value that [JSON.parse] returned; [None] when the
    conversion throws a [TypeError].  An array is joined with commas, a
    [null] item giving the empty string.  A plain object is
    ["[object Object]"], unless it has a member of its own named
    ["toString"]: a parsed member is never callable, so the conversion
    finds no usable method and throws. *)
Fixpoint js_String (v : Json) : option string :=
  match v with
  | JNull => Some "null"
  | JBool true => Some "true"
  | JBool false => Some "false"
  | JNumber n => Some (Number_toString n)
  | JString s => Some s
  | JArray items =>
      option_map (JsString.join ",")
        ((fix items_String (l : list Json) : option (list string) :=
            match l with
            | [] => Some []
            | x :: rest =>
                match match x with JNull => Some EmptyString | _ => js_String x end,
                      items_String rest with
                | Some s, Some ss => Some (s :: ss)
                | _, _ => None
                end
            end) items)
  | JObject fields =>
      if existsb (fun member => String.eqb (fst member) "toString") fields
      then None
      else Some "[object Object]"
  end.

(** [entries.map(f)] for an [f] that may throw: the first throw wins. *)
Fixpoint map_throwing {A B : Type} (f : A -> option B) (entries : list A)
  : option (list B) :=
  match entries with
  | [] => Some []
  | x :: rest =>
      match f x with
      | None => None
      | Some y =>
          match map_throwing f rest with
          | None => None
          | Some ys => Some (y :: ys)
          end
      end
  end.

End Json.

Arguments JNull {Num}.
Arguments JBool {Num} b.
Arguments JNumber {Num} n.
Arguments JString {Num} s.
Arguments JArray {Num} items.
Arguments JObject {Num} fields.
Arguments js_String {Num} Number_toString v.

(** ** Form data *)

Record File : Type := mkFile {
  file_name : string;
  file_bytes : string
}.

(** [FormDataEntryValue]: a string or a file. *)
Inductive FormDataEntryValue : Type :=
| EntryString (s : string)
| EntryFile (f : File).

(** The entries of a multipart form, in the order they were appended. *)
Definition FormData : Type := list (string * FormDataEntryValue).

(** [formData.get(name)]: the first entry of that name, or [null]. *)
Fixpoint FormData_get (formData : FormData) (name : string)
  : option FormDataEntryValue :=
  match formData with
  | [] => None
  | (k, v) :: rest => if String.eqb k name then Some v else FormData_get rest name
  end.

(** [formData.getAll(name)]: every entry of that name, in order. *)
Fixpoint FormData_getAll (formData : FormData) (name : string)
  : list FormDataEntryValue :=
  match formData with
  | [] => []
  | (k, v) :: rest =>
      if String.eqb k name then v :: FormData_getAll rest name
      else FormData_getAll rest name
  end.

(** [entry.toString()]: a string is itself, a file is ["[object File]"]. *)
Definition Entry_toString (entry : FormDataEntryValue) : string :=
  match entry with
  | EntryString s => s
  | EntryFile _ => "[object File]"
  end.

(** ** [parseJsonArray] *)

Section ParseJsonArray.

Variable Num : Type.
Variable Number_toString : Num -> string.

(** [JSON.parse]: [None] when it throws. *)
Variable JSON_parse : string -> option (Json Num).

Definition split_trim_filter (s : string) : list string :=
  filter JsString.truthy (map JsString.trim (JsString.split "," s)).

(** The body of the [try] either returns or throws ([None]); a throw of
    [JSON.parse] or of [String(entry)] lands in the [catch], which splits
    the raw text. *)
Definition parseJsonArray_try (raw : string) : option (list string) :=
  match JSON_parse raw with
  | None => None
  | Some (JArray parsed) =>
      option_map (filter JsString.truthy)
        (map_throwing
           (fun entry => option_map JsString.trim (js_String Number_toString entry))
           parsed)
  | Some (JString parsed) => Some (split_trim_filter parsed)
  | Some _ => Some []
  end.

Definition parseJsonArray (raw : option FormDataEntryValue) : list string :=
  match raw with
  | None => []
  | Some (EntryFile _) => []
  | Some (EntryString raw) =>
      if negb (JsString.truthy raw) then []
      else match parseJsonArray_try raw with
           | Some result => result
           | None => split_trim_filter raw
           end
  end.

End ParseJsonArray.

Arguments parseJsonArray_try {Num} Number_toString JSON_parse raw.
Arguments parseJsonArray {Num} Number_toString JSON_parse raw.

(** ** Thrown values, outcomes and the calls that leave the file *)

(** What a [catch] clause can receive: an [Error] with its message, or any
    other thrown value. *)
Inductive Thrown : Type :=
| ThrownError (message : string)
| ThrownOther (shown : string).

Inductive Outcome (A : Type) : Type :=
| Returned (a : A)
| Threw (e : Thrown).

Arguments Returned {A} a.
Arguments Threw {A} e.

(** The argument objects of the imported functions. *)
Record PromptArgs : Type := mkPromptArgs {
  pa_location : string;
  pa_mode : string;
  pa_lens : string;
  pa_cameraMood : string;
  pa_emphasis : list string
}.

Record Prompt : Type := mkPrompt {
  positive : string;
  negative : string
}.

Record FalArgs : Type := mkFalArgs {
  fa_baseImageBase64 : string;
  fa_prompt : string;
  fa_negativePrompt : string;
  fa_aspectRatio : string;
  fa_strength : Q
}.

Record PollinationsArgs : Type := mkPollinationsArgs {
  po_prompt : string;
  po_negativePrompt : string;
  po_aspectRatio : string
}.

Record ValidatorArgs : Type := mkValidatorArgs {
  va_imageUrl : string;
  va_location : string;
  va_expectations : list string
}.

(** What [validateMarineScene] resolves to. *)
Record ValidationOutcome : Type := mkValidation {
  v_status : string;
  v_issues : list string;
  v_reasoning : string
}.

(** One entry of the log per interaction with the world outside the file. *)
Inductive Event : Type :=
| CallRandomUUID
| CallBuildPrompt (args : PromptArgs)
| CallFileToBase64 (file : File)
| CallGenerateWithFal (args : FalArgs)
| CallGenerateWithPollinations (args : PollinationsArgs)
| CallValidateMarineScene (args : ValidatorArgs)
| ConsoleError (label : string) (error : Thrown).

(** The world outside the file.  Every answer may depend on the number of
    interactions made before the call, so that one function can answer
    the same arguments differently at different times. *)
Record Extern : Type := mkExtern {
  FAL_KEY : option string;
  randomUUID : nat -> string;
  buildPrompt : nat -> PromptArgs -> Outcome Prompt;
  fileToBase64 : nat -> File -> Outcome string;
  generateWithFal : nat -> FalArgs -> Outcome string;
  generateWithPollinations : nat -> PollinationsArgs -> Outcome string;
  validateMarineScene : nat -> ValidatorArgs -> Outcome ValidationOutcome
}.

(** ** A state and exception monad over the log *)

Definition Log : Type := list Event.

Definition M (A : Type) : Type := Log -> Outcome A * Log.

Definition ret {A : Type} (a : A) : M A := fun log => (Returned a, log).

Definition bind {A B : Type} (m : M A) (k : A -> M B) : M B :=
  fun log =>
    match m log with
    | (Returned a, log') => k a log'
    | (Threw e, log') => (Threw e, log')
    end.

(** [try { body } catch (e) { handler }] *)
Definition try_catch {A : Type} (body : M A) (handler : Thrown -> M A) : M A :=
  fun log =>
    match body log with
    | (Returned a, log') => (Returned a, log')
    | (Threw e, log') => handler e log'
    end.

(** An interaction: it is logged, and answered from the number of earlier
    interactions. *)
Definition call {A : Type} (ev : Event) (answer : nat -> Outcome A) : M A :=
  fun log => (answer (length log), (log ++ [ev])%list).

Declare Scope js_scope.
Delimit Scope js_scope with js.
Notation "x <- m ;; k" := (bind m (fun x => k))
  (at level 61, m at next level, right associativity) : js_scope.
Notation "m ;;; k" := (bind m (fun _ => k))
  (at level 61, right associativity) : js_scope.
Local Open Scope js_scope.

(** ** The results *)

Record Validation : Type := mkResultValidation {
  status : string;
  issues : list string;
  reasoning : string
}.

Record Metadata : Type := mkMetadata {
  mode : string;
  lens : string;
  mood : string;
  engine : string;
  location : string;
  aspectRatio : string
}.

(** [GenerationResult]; an absent member is [None]. *)
Record GenerationResult : Type := mkResult {
  id : string;
  originalName : string;
  stage : string;
  imageUrl : option string;
  validation : option Validation;
  metadata : option Metadata;
  error : option string
}.

(** The arguments of [runGeneration]. *)
Record GenerationArgs : Type := mkArgs {
  a_file : File;
  a_location : string;
  a_mode : string;
  a_lens : string;
  a_mood : string;
  a_emphasis : list string;
  a_aspectRatio : string
}.

(** Truthiness of a [string | undefined]. *)
Definition truthy_opt (s : option string) : bool :=
  match s with
  | None => false
  | Some s => JsString.truthy s
  end.

(** [error instanceof Error ? error.message : "Unknown ..."] *)
Definition error_text (e : Thrown) : string :=
  match e with
  | ThrownError message => message
  | ThrownOther _ => "Unknown generation error encountered."
  end.

(** ** [runGeneration] *)

Section Handler.

Variable X : Extern.

Definition crypto_randomUUID : M string :=
  call CallRandomUUID (fun t => Returned (randomUUID X t)).

Definition console_error (label : string) (e : Thrown) : M unit :=
  call (ConsoleError label e) (fun _ => Returned tt).

Definition promptArgs (a : GenerationArgs) : PromptArgs :=
  {| pa_location := a_location a;
     pa_mode := a_mode a;
     pa_lens := a_lens a;
     pa_cameraMood := a_mood a;
     pa_emphasis := a_emphasis a |}.

Definition falArgs (a : GenerationArgs) (base64 : string) (p : Prompt) : FalArgs :=
  {| fa_baseImageBase64 := base64;
     fa_prompt := positive p;
     fa_negativePrompt := negative p;
     fa_aspectRatio := a_aspectRatio a;
     fa_strength := 0.42%Q |}.

Definition pollinationsArgs (a : GenerationArgs) (p : Prompt) : PollinationsArgs :=
  {| po_prompt := positive p;
     po_negativePrompt := negative p;
     po_aspectRatio := a_aspectRatio a |}.

Definition validatorArgs (a : GenerationArgs) (url usedEngine : string)
  : ValidatorArgs :=
  {| va_imageUrl := url;
     va_location := a_location a;
     va_expectations :=
       [ "mode: " ++ a_mode a;
         "lens profile: " ++ a_lens a;
         "mood: " ++ a_mood a;
         "engine: " ++ usedEngine ] |}.

(** The block guarded by [process.env.FAL_KEY]: the values of [imageUrl]
    and [usedEngine] after it. *)
Definition primary_attempt (a : GenerationArgs) (base64 : string) (p : Prompt)
  : M (option string * string) :=
  if truthy_opt (FAL_KEY X) then
    try_catch
      (url <- call (CallGenerateWithFal (falArgs a base64 p))
                   (fun t => generateWithFal X t (falArgs a base64 p)) ;;
       ret (Some url, "fal-ai/flux-pro"))
      (fun falError =>
         console_error "FAL generation failed, falling back:" falError ;;;
         ret (None, "pollinations"))
  else ret (None, "pollinations").

(** The block guarded by [!imageUrl]. *)
Definition fallback_attempt (a : GenerationArgs) (p : Prompt)
           (imageUrl : option string) : M string :=
  match imageUrl with
  | Some url =>
      if JsString.truthy url then ret url
      else call (CallGenerateWithPollinations (pollinationsArgs a p))
                (fun t => generateWithPollinations X t (pollinationsArgs a p))
  | None =>
      call (CallGenerateWithPollinations (pollinationsArgs a p))
           (fun t => generateWithPollinations X t (pollinationsArgs a p))
  end.

(** The body of the outer [try]. *)
Definition runGeneration_try (a : GenerationArgs) (id originalName : string)
  : M GenerationResult :=
  p <- call (CallBuildPrompt (promptArgs a))
            (fun t => buildPrompt X t (promptArgs a)) ;;
  base64 <- call (CallFileToBase64 (a_file a))
                 (fun t => fileToBase64 X t (a_file a)) ;;
  attempt <- primary_attempt a base64 p ;;
  let usedEngine := snd attempt in
  imageUrl <- fallback_attempt a p (fst attempt) ;;
  validation <- call (CallValidateMarineScene (validatorArgs a imageUrl usedEngine))
                     (fun t => validateMarineScene X t
                                 (validatorArgs a imageUrl usedEngine)) ;;
  let status :=
    if String.eqb (v_status validation) "flagged" then "failed" else "completed" in
  ret {| id := id;
         originalName := originalName;
         stage := status;
         imageUrl := Some imageUrl;
         validation := Some {| status := v_status validation;
                               issues := v_issues validation;
                               reasoning := v_reasoning validation |};
         metadata := Some {| mode := a_mode a;
                             lens := a_lens a;
                             mood := a_mood a;
                             engine := usedEngine;
                             location := a_location a;
                             aspectRatio := a_aspectRatio a |};
         error := None |}.

(** The outer [catch]. *)
Definition runGeneration_catch (id originalName : string) (error : Thrown)
  : M GenerationResult :=
  console_error "Generation error:" error ;;;
  ret {| id := id;
         originalName := originalName;
         stage := "failed";
         imageUrl := None;
         validation := None;
         metadata := None;
         error := Some (error_text error) |}.

Definition runGeneration (a : GenerationArgs) : M GenerationResult :=
  id <- crypto_randomUUID ;;
  let originalName :=
    JsString.or_else (file_name (a_file a)) ("upload-" ++ id ++ ".png") in
  try_catch (runGeneration_try a id originalName)
            (runGeneration_catch id originalName).

End Handler.

(** ** [POST] *)

Inductive Body : Type :=
| ErrorBody (error : string)
| BatchBody (location mode lens mood : string) (results : list GenerationResult).

(** [NextResponse.json(body, { status })]; the status is 200 when omitted. *)
Record Response : Type := mkResponse {
  http_status : nat;
  body : Body
}.

(** [entries.filter((entry) => entry instanceof File)] *)
Fixpoint only_files (entries : list FormDataEntryValue) : list File :=
  match entries with
  | [] => []
  | EntryFile f :: rest => f :: only_files rest
  | EntryString _ :: rest => only_files rest
  end.

(** [formData.get(name)?.toString() ?? fallback] *)
Definition field_or (formData : FormData) (name fallback : string) : string :=
  match FormData_get formData name with
  | None => fallback
  | Some entry => Entry_toString entry
  end.

Section Endpoint.

Variable Num : Type.
Variable Number_toString : Num -> string.
Variable JSON_parse : string -> option (Json Num).
Variable X : Extern.

Definition POST_location (formData : FormData) : string :=
  match FormData_get formData "location" with
  | None => "local waterways"
  | Some entry =>
      JsString.or_else (JsString.trim (Entry_toString entry)) "local waterways"
  end.

Definition POST_mode (formData : FormData) : string :=
  field_or formData "mode" "running".

Definition POST_lens (formData : FormData) : string :=
  field_or formData "lens" "wide".

Definition POST_mood (formData : FormData) : string :=
  field_or formData "mood" "sunrise".

Definition POST_emphasis (formData : FormData) : list string :=
  parseJsonArray Number_toString JSON_parse (FormData_get formData "emphasis").

Definition POST_aspectRatioRaw (formData : FormData) : string :=
  field_or formData "aspectRatio" "3:2".

Definition POST_aspectRatio (formData : FormData) : string :=
  let aspectRatioRaw := POST_aspectRatioRaw formData in
  if (String.eqb aspectRatioRaw "1:1"
      || String.eqb aspectRatioRaw "4:3"
      || String.eqb aspectRatioRaw "16:9")%bool
  then aspectRatioRaw
  else "3:2".

Definition POST_files (formData : FormData) : list File :=
  only_files (FormData_getAll formData "images").

(** The argument object handed to [runGeneration] for one file. *)
Definition POST_args (formData : FormData) (file : File) : GenerationArgs :=
  {| a_file := file;
     a_location := POST_location formData;
     a_mode := POST_mode formData;
     a_lens := POST_lens formData;
     a_mood := POST_mood formData;
     a_emphasis := POST_emphasis formData;
     a_aspectRatio := POST_aspectRatio formData |}.

(** [for (const file of files) { results.push(await runGeneration(..)) }] *)
Fixpoint POST_loop (formData : FormData) (files : list File)
         (results : list GenerationResult) : M (list GenerationResult) :=
  match files with
  | [] => ret results
  | file :: rest =>
      result <- runGeneration X (POST_args formData file) ;;
      POST_loop formData rest (results ++ [result])%list
  end.

Definition POST (formData : FormData) : M Response :=
  let files := POST_files formData in
  match files with
  | [] => ret {| http_status := 400; body := ErrorBody "No images provided." |}
  | _ :: _ =>
      results <- POST_loop formData files [] ;;
      ret {| http_status := 200;
             body := BatchBody (POST_location formData) (POST_mode formData)
                               (POST_lens formData) (POST_mood formData)
                               results |}
  end.

End Endpoint.

(** ** The fixed enumerations of the form *)

(** The [value]s of [MODES], [MOODS], [LENSES] and [ASPECTS] of the page. *)
Definition MODES : list string := ["running"; "anchored"; "showcase"].
Definition MOODS : list string := ["sunrise"; "midday"; "sunset"; "night"].
Definition LENSES : list string := ["wide"; "telephoto"; "immersive"].
Definition ASPECTS : list string := ["3:2"; "16:9"; "4:3"; "1:1"].

Arguments POST_emphasis {Num} Number_toString JSON_parse formData.
Arguments POST_args {Num} Number_toString JSON_parse formData file.
Arguments POST_loop {Num} Number_toString JSON_parse X formData files results.
Arguments POST {Num} Number_toString JSON_parse X formData.

(** ** Reading the log *)

(** [threw_during X t evs e]: one of the steps of an item (prompt
    construction, base64 encoding, fallback generation, validation) that
    the events [evs] record, the first of them made after [t] earlier
    interactions, was answered by throwing [e].  A throw of the primary
    generator does not count. *)
Fixpoint threw_during (X : Extern) (t : nat) (evs : list Event) (e : Thrown) : Prop :=
  match evs with
  | [] => False
  | ev :: rest =>
      match ev with
      | CallBuildPrompt args => buildPrompt X t args = Threw e
      | CallFileToBase64 file => fileToBase64 X t file = Threw e
      | CallGenerateWithPollinations args => generateWithPollinations X t args = Threw e
      | CallValidateMarineScene args => validateMarineScene X t args = Threw e
      | CallRandomUUID | CallGenerateWithFal _ | ConsoleError _ _ => False
      end \/ threw_during X (S t) rest e
  end.

(** The name an item reports for its file. *)
Definition reported_name (file : File) (id : string) : string :=
  JsString.or_else (file_name file) ("upload-" ++ id ++ ".png").

(** The items of a batch, run one after the other on the same form: each
    file has its result, and the log is threaded from one to the next. *)
Inductive Batch {Num : Type} (Number_toString : Num -> string)
          (JSON_parse : string -> option (Json Num)) (X : Extern)
          (formData : FormData)
  : list File -> Log -> list GenerationResult -> Log -> Prop :=
| Batch_nil (log : Log) :
    Batch Number_toString JSON_parse X formData [] log [] log
| Batch_cons (file : File) (files : list File) (log log1 log2 : Log)
             (result : GenerationResult) (results : list GenerationResult) :
    runGeneration X (POST_args Number_toString JSON_parse formData file) log
      = (Returned result, log1) ->
    Batch Number_toString JSON_parse X formData files log1 results log2 ->
    Batch Number_toString JSON_parse X formData (file :: files) log
          (result :: results) log2.

(** An event of a request carries the parameters read from its form. *)
Definition event_of_form {Num : Type} (Number_toString : Num -> string)
           (JSON_parse : string -> option (Json Num))
           (formData : FormData) (ev : Event) : Prop :=
  match ev with
  | CallBuildPrompt args =>
      args = {| pa_location := POST_location formData;
                pa_mode := POST_mode formData;
                pa_lens := POST_lens formData;
                pa_cameraMood := POST_mood formData;
                pa_emphasis := POST_emphasis Number_toString JSON_parse formData |}
  | CallGenerateWithFal args => fa_aspectRatio args = POST_aspectRatio formData
  | CallGenerateWithPollinations args => po_aspectRatio args = POST_aspectRatio formData
  | CallValidateMarineScene args => va_location args = POST_location formData
  | CallRandomUUID | CallFileToBase64 _ | ConsoleError _ _ => True
  end.

(** The metadata of a result, when present, echoes the parameters read
    from the form. *)
Definition result_of_form (formData : FormData) (r : GenerationResult) : Prop :=
  match metadata r with
  | None => True
  | Some m =>
      mode m = POST_mode formData /\
      lens m = POST_lens formData /\
      mood m = POST_mood formData /\
      location m = POST_location formData /\
      aspectRatio m = POST_aspectRatio formData
  end.

(** ** A small world to run the handler in *)

Module Sample.

Definition quote : string := String (ascii_of_nat 34) EmptyString.

(** Natural numbers stand for the numbers of the examples. *)
Definition Number_toString (n : nat) : string :=
  NilZero.string_of_uint (Nat.to_uint n).

Definition emphasis_text : string :=
  "[" ++ quote ++ " glassy water " ++ quote ++ ", 7, "
      ++ quote ++ "  " ++ quote ++ ", true]".

Definition emphasis_value : Json nat :=
  JArray [JString " glassy water "; JNumber 7; JString "  "; JBool true].

Definition shadowed_text : string :=
  "[{" ++ quote ++ "toString" ++ quote ++ ":1}]".

Definition shadowed_value : Json nat :=
  JArray [JObject [("toString", JNumber 1)]].

(** [JSON.parse] on the texts of the examples; it throws on every other
    text, the empty one among them. *)
Definition JSON_parse (text : string) : option (Json nat) :=
  if String.eqb text emphasis_text then Some emphasis_value
  else if String.eqb text shadowed_text then Some shadowed_value
  else None.

Definition prompt_of (args : PromptArgs) : Prompt :=
  {| positive := "boat under way near " ++ pa_location args;
     negative := "trailer, parking lot" |}.

Definition approved : ValidationOutcome :=
  {| v_status := "approved"; v_issues := []; v_reasoning := "hull sits in the water" |}.


(** Every provider answers. *)
Definition healthy : Extern :=
  {| FAL_KEY := Some "fal-key";
     randomUUID := fun t => "uuid-" ++ Number_toString t;
     buildPrompt := fun _ args => Returned (prompt_of args);
     fileToBase64 := fun _ file => Returned ("base64:" ++ file_bytes file);
     generateWithFal := fun _ _ => Returned "https://fal.media/out.png";
     generateWithPollinations :=
       fun _ _ => Returned "https://image.pollinations.ai/out.png";
     validateMarineScene := fun _ _ => Returned approved |}.

(** The primary generator throws. *)
Definition fal_down : Extern :=
  {| FAL_KEY := FAL_KEY healthy;
     randomUUID := randomUUID healthy;
     buildPrompt := buildPrompt healthy;
     fileToBase64 := fileToBase64 healthy;
     generateWithFal := fun _ _ => Threw (ThrownError "fal: 503");
     generateWithPollinations := generateWithPollinations healthy;
     validateMarineScene := validateMarineScene healthy |}.

(** The primary generator resolves to an empty URL. *)
Definition fal_empty : Extern :=
  {| FAL_KEY := FAL_KEY healthy;
     randomUUID := randomUUID healthy;
     buildPrompt := buildPrompt healthy;
     fileToBase64 := fileToBase64 healthy;
     generateWithFal := fun _ _ => Returned EmptyString;
     generateWithPollinations := generateWithPollinations healthy;
     validateMarineScene := validateMarineScene healthy |}.

(** Files named ["broken.png"] cannot be encoded; the validator flags
    nothing. *)
Definition one_bad_file : Extern :=
  {| FAL_KEY := None;
     randomUUID := randomUUID healthy;
     buildPrompt := buildPrompt healthy;
     fileToBase64 :=
       fun _ file =>
         if String.eqb (file_name file) "broken.png"
         then Threw (ThrownError "cannot read file")
         else Returned ("base64:" ++ file_bytes file);
     generateWithFal := generateWithFal healthy;
     generateWithPollinations := generateWithPollinations healthy;
     validateMarineScene := validateMarineScene healthy |}.


Definition hull : File := {| file_name := "hull.png"; file_bytes := "PNG1" |}.
Definition broken : File := {| file_name := "broken.png"; file_bytes := "" |}.
Definition deck : File := {| file_name := "deck.png"; file_bytes := "PNG2" |}.

Definition args_of (file : File) : GenerationArgs :=
  {| a_file := file;
     a_location := "Fort Lauderdale, Florida";
     a_mode := "running";
     a_lens := "wide";
     a_mood := "sunrise";
     a_emphasis := ["clean foam wake trails"];
     a_aspectRatio := "3:2" |}.

(** The form the page sends for three files. *)
Definition form : FormData :=
  [ ("images", EntryFile hull);
    ("images", EntryFile broken);
    ("images", EntryFile deck);
    ("location", EntryString "Fort Lauderdale, Florida");
    ("mode", EntryString "anchored");
    ("mood", EntryString "sunset");
    ("lens", EntryString "telephoto");
    ("aspectRatio", EntryString "16:9");
    ("emphasis", EntryString emphasis_text) ].

(** A form written by hand: unknown mode, blank location, no files. *)
Definition odd_form : FormData :=
  [ ("location", EntryString "   ");
    ("mode", EntryString "turbo");
    ("lens", EntryString "");
    ("aspectRatio", EntryString "2:1");
    ("emphasis", EntryString shadowed_text) ].

(** The same with one file. *)
Definition odd_upload : FormData := ("images", EntryFile hull) :: odd_form.

End Sample.

(** ** The page: emphasis tags *)

(** The default emphasis phrases of the page. *)
Definition DEFAULT_EMPHASIS : list string :=
  [ "clean foam wake trails";
    "glassy water reflections";
    "premium upholstery details";
    "dealer skyline visible in background" ].

(** The characters of the class [[\n,]]. *)
Definition isTagSeparator (c : ascii) : bool :=
  (Ascii.eqb c (ascii_of_nat 10) || Ascii.eqb c ",")%bool.

(** [input.split(/[\n,]+/)]: the pieces between the maximal runs of
    separators.  [inRun] tells that the character before belongs to a run,
    whose piece boundary is already made. *)
Fixpoint splitTagRuns (inRun : bool) (input : string) : list string :=
  match input with
  | EmptyString => [EmptyString]
  | String c rest =>
      if isTagSeparator c then
        if inRun then splitTagRuns true rest
        else EmptyString :: splitTagRuns true rest
      else
        match splitTagRuns false rest with
        | [] => [String c EmptyString]
        | piece :: pieces => String c piece :: pieces
        end
  end.

Definition parseTags (input : string) : list string :=
  filter JsString.truthy (map JsString.trim (splitTagRuns false input)).

(** The memoised [emphasisTags] of the page. *)
Definition emphasisTags (emphasisInput : string) : list string :=
  let tags := parseTags emphasisInput in
  match tags with
  | [] => DEFAULT_EMPHASIS
  | _ :: _ => tags
  end.

(** ** The page: file sizes *)

Definition decimal (n : N) : string := NilZero.string_of_uint (N.to_uint n).

(** The number of tenths that [(num / den).toFixed(1)] prints: the integer
    [n] with [n / 10] nearest to [num / den], the larger one on a tie.
    [den] is a power of two here, so the quotient of the two numbers is
    exact and no rounding happens before this one. *)
Definition tenths (num den : N) : N := ((10 * num + den / 2) / den)%N.

Definition toFixed1 (num den : N) : string :=
  decimal (tenths num den / 10) ++ "." ++ decimal (tenths num den mod 10).

(** [formatBytes] on a file size. *)
Definition formatBytes (bytes : N) : string :=
  if (bytes <? 1024)%N then decimal bytes ++ " B"
  else if (bytes <? 1024 * 1024)%N then toFixed1 bytes 1024 ++ " KB"
  else toFixed1 bytes (1024 * 1024) ++ " MB".

(** ** The page: submitting the batch *)

Record LocalUpload : Type := mkUpload {
  lu_id : string;
  lu_file : File;
  lu_preview : string;
  lu_name : string;
  lu_size : N
}.

(** The state of [Page] that [handleProcess] reads and writes. *)
Record PageState : Type := mkPage {
  st_files : list LocalUpload;
  st_location : string;
  st_mode : string;
  st_mood : string;
  st_lens : string;
  st_aspectRatio : string;
  st_emphasisInput : string;
  st_isProcessing : bool;
  st_results : list GenerationResult;
  st_error : option string
}.

(** A call of one of the state setters. *)
Inductive Update : Type :=
| SetIsProcessing (value : bool)
| SetError (value : option string)
| SetResults (value : list GenerationResult).

Definition apply_update (st : PageState) (u : Update) : PageState :=
  match u with
  | SetIsProcessing value =>
      {| st_files := st_files st; st_location := st_location st;
         st_mode := st_mode st; st_mood := st_mood st; st_lens := st_lens st;
         st_aspectRatio := st_aspectRatio st;
         st_emphasisInput := st_emphasisInput st;
         st_isProcessing := value;
         st_results := st_results st; st_error := st_error st |}
  | SetError value =>
      {| st_files := st_files st; st_location := st_location st;
         st_mode := st_mode st; st_mood := st_mood st; st_lens := st_lens st;
         st_aspectRatio := st_aspectRatio st;
         st_emphasisInput := st_emphasisInput st;
         st_isProcessing := st_isProcessing st;
         st_results := st_results st; st_error := value |}
  | SetResults value =>
      {| st_files := st_files st; st_location := st_location st;
         st_mode := st_mode st; st_mood := st_mood st; st_lens := st_lens st;
         st_aspectRatio := st_aspectRatio st;
         st_emphasisInput := st_emphasisInput st;
         st_isProcessing := st_isProcessing st;
         st_results := value; st_error := st_error st |}
  end.

(** The setter calls of a handler, applied in the order they were made. *)
Definition apply_updates (updates : list Update) (st : PageState) : PageState :=
  fold_left apply_update updates st.

(** What [fetch] and the reading of the response come to, for the bodies
    that the casts of [handleProcess] allow: [fetch] rejects; the response
    is not ok, and [detail?.error] is a string or is missing (also when
    the body is no JSON); the response is ok, and reading
    [payload.results] gives a list of results or throws. *)
Inductive FetchOutcome : Type :=
| FetchRejected (e : Thrown)
| RespondedNotOk (detail_error : option string)
| RespondedOk (payload_results : Outcome (list GenerationResult)).

(** [err instanceof Error ? err.message : "Unexpected error occurred."] *)
Definition error_message (err : Thrown) : string :=
  match err with
  | ThrownError message => message
  | ThrownOther _ => "Unexpected error occurred."
  end.

Section PageHandlers.

(** [JSON.stringify] on an array of strings. *)
Variable JSON_stringify : list string -> string.

(** The [FormData] that [handleProcess] fills. *)
Definition requestBody (st : PageState) : FormData :=
  (map (fun entry => ("images", EntryFile (lu_file entry))) (st_files st)
   ++ [ ("location", EntryString (st_location st));
        ("mode", EntryString (st_mode st));
        ("mood", EntryString (st_mood st));
        ("lens", EntryString (st_lens st));
        ("aspectRatio", EntryString (st_aspectRatio st));
        ("emphasis", EntryString (JSON_stringify (emphasisTags (st_emphasisInput st)))) ])%list.

(** The body of the [try]: the results, or what is thrown. *)
Definition handleProcess_try (outcome : FetchOutcome) : Outcome (list GenerationResult) :=
  match outcome with
  | FetchRejected e => Threw e
  | RespondedNotOk detail_error =>
      Threw (ThrownError match detail_error with
                         | Some message => message
                         | None => "Generation failed."
                         end)
  | RespondedOk payload_results => payload_results
  end.

(** [handleProcess] with the state it has captured: the setter calls it
    makes, in order, and the request bodies it sends. *)
Definition handleProcess (st : PageState) (fetch : FormData -> FetchOutcome)
  : list Update * list FormData :=
  match st_files st with
  | [] => ([SetError (Some "Drop a set of trailer photos first.")], [])
  | _ :: _ =>
      let body := requestBody st in
      ([SetIsProcessing true; SetError None; SetResults []]
         ++ match handleProcess_try (fetch body) with
            | Returned results => [SetResults results]
            | Threw err => [SetError (Some (error_message err))]
            end
         ++ [SetIsProcessing false],
       [body])%list
  end.

End PageHandlers.

(** What the page reads from a response of the endpoint; [None] for a
    body that the casts of [handleProcess] do not allow (an ok response
    without results). *)
Definition response_outcome (r : Response) : option FetchOutcome :=
  let ok := (Nat.leb 200 (http_status r) && Nat.leb (http_status r) 299)%bool in
  match body r with
  | BatchBody _ _ _ _ results =>
      Some (if ok then RespondedOk (Returned results) else RespondedNotOk None)
  | ErrorBody message =>
      if ok then None else Some (RespondedNotOk (Some message))
  end.

(** ** Predicates on strings *)

(** [s.trim() === s] *)
Definition trimmed (s : string) : Prop := JsString.trim s = s.

(** [s.includes(c)] for a single character. *)
Definition contains (c : ascii) (s : string) : Prop := In c (list_ascii_of_string s).

(** An emphasis tag as the page makes them: not empty, trimmed, free of
    commas and line feeds. *)
Definition clean_tag (s : string) : Prop :=
  JsString.truthy s = true /\ trimmed s
  /\ forall c, contains c s -> isTagSeparator c = false.

(** ** The request *)

(** A request, as far as the handler looks at it: what
    [await request.formData()] comes to, the parsed form or the rejection
    for a body that is no form. *)
Record Request : Type := mkRequest {
  request_formData : Outcome FormData
}.

(** The exported handler from its first line: the form is read outside any
    [try], so a rejection leaves the handler as it is; [POST] above is
    what follows, on the parsed form. *)
Definition POST_request {Num : Type} (Number_toString : Num -> string)
           (JSON_parse : string -> option (Json Num)) (X : Extern)
           (request : Request) : M Response :=
  match request_formData request with
  | Threw e => fun log => (Threw e, log)
  | Returned formData => POST Number_toString JSON_parse X formData
  end.

(** ** The way from the page to the endpoint *)

Definition isLineBreak (c : ascii) : bool :=
  (Nat.eqb (nat_of_ascii c) 10 || Nat.eqb (nat_of_ascii c) 13)%bool.

(** A string without CR and LF. *)
Definition single_line (s : string) : Prop :=
  forallb (fun c => negb (isLineBreak c)) (list_ascii_of_string s) = true.

(** Letters, digits, dot, hyphen and underscore. *)
Definition isPlainNameChar (c : ascii) : bool :=
  let n := nat_of_ascii c in
  ((Nat.leb 48 n && Nat.leb n 57) || (Nat.leb 65 n && Nat.leb n 90)
   || (Nat.leb 97 n && Nat.leb n 122)
   || Nat.eqb n 45 || Nat.eqb n 46 || Nat.eqb n 95)%bool.

(** A name that is not empty and made of such characters only. *)
Definition plain_name (s : string) : Prop :=
  (JsString.truthy s && forallb isPlainNameChar (list_ascii_of_string s))%bool = true.

(** What an entry written by [fetch] as [multipart/form-data] and the
    entry read back by [request.formData()] are taken to have in common.
    The encoding rewrites line breaks in names and values and escapes
    characters of file names, and the reading decodes escapes; so a name
    is taken to arrive as sent only when it is plain, a value only when
    it has no line break, and a file arrives as a file, under the name
    sent only when that name is plain. *)
Inductive delivered_entry
  : string * FormDataEntryValue -> string * FormDataEntryValue -> Prop :=
| delivered_string (name name' value value' : string) :
    (plain_name name -> name' = name) ->
    (single_line value -> value' = value) ->
    delivered_entry (name, EntryString value) (name', EntryString value')
| delivered_file (name name' : string) (file file' : File) :
    (plain_name name -> name' = name) ->
    (plain_name (file_name file) -> file_name file' = file_name file) ->
    delivered_entry (name, EntryFile file) (name', EntryFile file').

(** The entries arrive one for one, in the order sent. *)
Definition delivered (sent received : FormData) : Prop :=
  Forall2 delivered_entry sent received.

(** [clean_tag], decided. *)
Definition clean_tagb (s : string) : bool :=
  (JsString.truthy s && String.eqb (JsString.trim s) s
   && forallb (fun c => negb (isTagSeparator c)) (list_ascii_of_string s))%bool.

(** Every kind of event counted in a log. *)
Definition isBuildPrompt (ev : Event) : bool :=
  match ev with CallBuildPrompt _ => true | _ => false end.

Definition isValidate (ev : Event) : bool :=
  match ev with CallValidateMarineScene _ => true | _ => false end.

Definition isGenerate (ev : Event) : bool :=
  match ev with
  | CallGenerateWithFal _ | CallGenerateWithPollinations _ => true
  | _ => false
  end.

Definition count (p : Event -> bool) (evs : list Event) : nat :=
  length (filter p evs).

(** Every validator call of [evs] has a generator call before it; [seen]
    tells that a generator was called before [evs]. *)
Fixpoint validates_after_generating (seen : bool) (evs : list Event) : bool :=
  match evs with
  | [] => true
  | ev :: rest =>
      if isValidate ev then (seen && validates_after_generating seen rest)%bool
      else validates_after_generating (seen || isGenerate ev)%bool rest
  end.

(** A second world for the page: its own array printer and a parser that
    knows what the printer made of the default phrases. *)
Module SamplePage.

Definition JSON_stringify (tags : list string) : string :=
  "[" ++ JsString.join ","
           (map (fun tag => Sample.quote ++ tag ++ Sample.quote) tags) ++ "]".

Definition JSON_parse (text : string) : option (Json nat) :=
  if String.eqb text (JSON_stringify DEFAULT_EMPHASIS)
  then Some (JArray (map JString DEFAULT_EMPHASIS))
  else None.

Definition upload (id : string) (file : File) : LocalUpload :=
  {| lu_id := id;
     lu_file := file;
     lu_preview := "blob:" ++ id;
     lu_name := file_name file;
     lu_size := N.of_nat (String.length (file_bytes file)) |}.

(** The page after two files were dropped, the form left as it starts. *)
Definition page : PageState :=
  {| st_files := [upload "a" Sample.hull; upload "b" Sample.broken];
     st_location := "Fort Lauderdale, Florida";
     st_mode := "running";
     st_mood := "sunrise";
     st_lens := "wide";
     st_aspectRatio := "3:2";
     st_emphasisInput := JsString.join (String (ascii_of_nat 10) EmptyString)
                                        DEFAULT_EMPHASIS;
     st_isProcessing := false;
     st_results := [];
     st_error := Some "stale" |}.

(** The form that arrives for the request of [page]: its file names are
    plain and its strings have no line break, so nothing is rewritten on
    the way; the bytes of the files are not looked at here. *)
Definition received : FormData :=
  [ ("images", EntryFile Sample.hull);
    ("images", EntryFile Sample.broken);
    ("location", EntryString "Fort Lauderdale, Florida");
    ("mode", EntryString "running");
    ("mood", EntryString "sunrise");
    ("lens", EntryString "wide");
    ("aspectRatio", EntryString "3:2");
    ("emphasis", EntryString (JSON_stringify DEFAULT_EMPHASIS)) ].

Definition request : Request := {| request_formData := Returned received |}.

(** [fetch] for the request of [page]: the answer of the endpoint, run in
    the world [Sample.one_bad_file] on the form as received. *)
Definition fetch (body : FormData) : FetchOutcome :=
  match POST_request Sample.Number_toString JSON_parse Sample.one_bad_file
                     request [] with
  | (Returned r, _) =>
      match response_outcome r with
      | Some outcome => outcome
      | None => FetchRejected (ThrownOther "unreadable")
      end
  | (Threw e, _) => FetchRejected e
  end.


(** The validator throws a value that is no [Error]. *)
Definition validator_rejects : Extern :=
  {| FAL_KEY := FAL_KEY Sample.healthy;
     randomUUID := randomUUID Sample.healthy;
     buildPrompt := buildPrompt Sample.healthy;
     fileToBase64 := fileToBase64 Sample.healthy;
     generateWithFal := generateWithFal Sample.healthy;
     generateWithPollinations := generateWithPollinations Sample.healthy;
     validateMarineScene := fun _ _ => Threw (ThrownOther "socket closed") |}.

(** A file without a name. *)
Definition unnamed : File := {| file_name := EmptyString; file_bytes := "PNG3" |}.

(** A UUID source that never repeats: the call time in unary. *)
Fixpoint unary (t : nat) : string :=
  match t with
  | 0 => EmptyString
  | S t' => String "i" (unary t')
  end.

Definition counting : Extern :=
  {| FAL_KEY := None;
     randomUUID := unary;
     buildPrompt := buildPrompt Sample.healthy;
     fileToBase64 := fileToBase64 Sample.healthy;
     generateWithFal := generateWithFal Sample.healthy;
     generateWithPollinations := generateWithPollinations Sample.healthy;
     validateMarineScene := validateMarineScene Sample.healthy |}.

End SamplePage.

(** ** Proof tools *)

Ltac unfold_run :=
  unfold runGeneration, runGeneration_try, runGeneration_catch, primary_attempt,
    fallback_attempt, crypto_randomUUID, console_error, try_catch, bind, ret, call.

(** Logs as [log ++ events], call times as successors of [length log]. *)
Ltac norm_log :=
  repeat rewrite <- app_assoc in *;
  repeat rewrite length_app in *;
  cbn [length app Nat.add] in *;
  repeat rewrite Nat.add_1_r in *;
  repeat rewrite Nat.add_succ_r in *;
  repeat rewrite Nat.add_0_r in *.

(** One case per answer of the next call. *)
Ltac split_answer :=
  match goal with
  | |- context [match buildPrompt ?X ?t ?a with _ => _ end] =>
      destruct (buildPrompt X t a) eqn:?
  | |- context [match fileToBase64 ?X ?t ?a with _ => _ end] =>
      destruct (fileToBase64 X t a) eqn:?
  | |- context [match generateWithFal ?X ?t ?a with _ => _ end] =>
      destruct (generateWithFal X t a) eqn:?
  | |- context [match generateWithPollinations ?X ?t ?a with _ => _ end] =>
      destruct (generateWithPollinations X t a) eqn:?
  | |- context [match validateMarineScene ?X ?t ?a with _ => _ end] =>
      destruct (validateMarineScene X t a) eqn:?
  | |- context [if truthy_opt ?k then _ else _] =>
      destruct (truthy_opt k) eqn:?
  | |- context [if JsString.truthy ?k then _ else _] =>
      destruct (JsString.truthy k) eqn:?
  end.

Ltac run_paths := unfold_run; cbn; repeat (split_answer; cbn).

(** Two answers to one call are one answer. *)
Ltac unify_answers :=
  repeat match goal with
         | A : ?f = Returned ?x, B : ?f = Returned ?y |- _ =>
             assert (x = y) by congruence; subst; clear B
         | A : ?f = Threw ?x, B : ?f = Threw ?y |- _ =>
             assert (x = y) by congruence; subst; clear B
         | A : ?f = Returned _, B : ?f = Threw _ |- _ =>
             exfalso; congruence
         | A : ?f = true, B : ?f = false |- _ =>
             exfalso; congruence
         | A : false = true |- _ => discriminate A
         | A : true = false |- _ => discriminate A
         end.

(** The events of a run, read off an equation between two logs. *)
Ltac read_events H :=
  injection H as ? H; subst; norm_log; apply app_inv_head in H; subst.

(** ** The worker never throws *)

Lemma runGeneration_returns (X : Extern) (a : GenerationArgs) (log : Log) :
  exists r evs, runGeneration X a log = (Returned r, (log ++ evs)%list).
Proof.
  run_paths; norm_log; eexists; eexists; reflexivity.
Qed.

Lemma runGeneration_identity (X : Extern) (a : GenerationArgs) (log log' : Log)
      (r : GenerationResult) :
  runGeneration X a log = (Returned r, log') ->
  id r = randomUUID X (length log) /\
  originalName r = reported_name (a_file a) (id r).
Proof.
  run_paths; intros H; injection H as <- _; cbn; split; reflexivity.
Qed.

(** ** Failures of an item *)

(** C1. When a step of an item (prompt construction, base64 encoding,
    fallback generation or validation) throws, the error is caught: the
    item's result has stage ["failed"]; its error string is the message
    when an [Error] was thrown and ["Unknown generation error
    encountered."] for any other thrown value; it carries the item's id
    and the file's name (["upload-<id>.png"] for a file without a name),
    and no image URL, validation or metadata.  The error is the last
    thing the item writes to the console. *)
Theorem runGeneration_step_throw_fails
        (X : Extern) (a : GenerationArgs) (log : Log)
        (out : Outcome GenerationResult) (evs : list Event) (e : Thrown) :
  runGeneration X a log = (out, (log ++ evs)%list) ->
  threw_during X (length log) evs e ->
  out = Returned
          {| id := randomUUID X (length log);
             originalName :=
               match file_name (a_file a) with
               | EmptyString => "upload-" ++ randomUUID X (length log) ++ ".png"
               | String _ _ => file_name (a_file a)
               end;
             stage := "failed";
             imageUrl := None;
             validation := None;
             metadata := None;
             error := Some match e with
                           | ThrownError message => message
                           | ThrownOther _ => "Unknown generation error encountered."
                           end |}
  /\ last evs CallRandomUUID = ConsoleError "Generation error:" e.
Proof.
  run_paths; intros H T; read_events H; cbn in T;
    decompose [or] T; try contradiction; try congruence;
    match goal with
    | A : ?f = Threw ?e1, B : ?f = Threw ?e2 |- _ =>
        assert (e1 = e2) by congruence; subst
    end;
    unfold JsString.or_else;
    destruct (file_name (a_file a)); cbn;
    (split; reflexivity).
Qed.

Lemma runGeneration_step_throw_fails_witness :
  fst (runGeneration Sample.one_bad_file (Sample.args_of Sample.broken) [])
  = Returned {| id := "uuid-0";
                originalName := "broken.png";
                stage := "failed";
                imageUrl := None;
                validation := None;
                metadata := None;
                error := Some "cannot read file" |}
  /\ fst (runGeneration SamplePage.validator_rejects
                        (Sample.args_of SamplePage.unnamed) [])
     = Returned {| id := "uuid-0";
                   originalName := "upload-uuid-0.png";
                   stage := "failed";
                   imageUrl := None;
                   validation := None;
                   metadata := None;
                   error := Some "Unknown generation error encountered." |}.
Proof.
  split.
  - apply (runGeneration_step_throw_fails
             Sample.one_bad_file (Sample.args_of Sample.broken) []
             (fst (runGeneration Sample.one_bad_file (Sample.args_of Sample.broken) []))
             [CallRandomUUID; CallBuildPrompt (promptArgs (Sample.args_of Sample.broken));
              CallFileToBase64 Sample.broken;
              ConsoleError "Generation error:" (ThrownError "cannot read file")]
             (ThrownError "cannot read file")).
    + reflexivity.
    + cbn. right. right. left. reflexivity.
  - apply (runGeneration_step_throw_fails
             SamplePage.validator_rejects (Sample.args_of SamplePage.unnamed) []
             (fst (runGeneration SamplePage.validator_rejects
                                 (Sample.args_of SamplePage.unnamed) []))
             (snd (runGeneration SamplePage.validator_rejects
                                 (Sample.args_of SamplePage.unnamed) []))
             (ThrownOther "socket closed")).
    + reflexivity.
    + cbn. do 4 right. left. reflexivity.
Defined.

(** ** The fallback *)

(** C2. With [FAL_KEY] configured, a throw of the primary generator does
    not fail the item: the throw is logged, the fallback generator is
    called next with the primary call's positive prompt, negative prompt
    and aspect ratio, and when the fallback and the validator answer, the
    item returns the ordinary result, carrying the fallback's URL, the
    validator's verdict and no error. *)
Theorem runGeneration_fal_throw_falls_back
        (X : Extern) (a : GenerationArgs) (log : Log)
        (p : Prompt) (base64 : string) (falError : Thrown) :
  truthy_opt (FAL_KEY X) = true ->
  buildPrompt X (1 + length log) (promptArgs a) = Returned p ->
  fileToBase64 X (2 + length log) (a_file a) = Returned base64 ->
  generateWithFal X (3 + length log) (falArgs a base64 p) = Threw falError ->
  let primary := falArgs a base64 p in
  let fallback := {| po_prompt := fa_prompt primary;
                     po_negativePrompt := fa_negativePrompt primary;
                     po_aspectRatio := fa_aspectRatio primary |} in
  let started := [ CallRandomUUID;
                   CallBuildPrompt (promptArgs a);
                   CallFileToBase64 (a_file a);
                   CallGenerateWithFal primary;
                   ConsoleError "FAL generation failed, falling back:" falError;
                   CallGenerateWithPollinations fallback ] in
  (exists out rest,
      runGeneration X a log = (out, (log ++ started ++ rest)%list))
  /\
  (forall (url : string) (v : ValidationOutcome),
      generateWithPollinations X (5 + length log) fallback = Returned url ->
      validateMarineScene X (6 + length log) (validatorArgs a url "pollinations")
        = Returned v ->
      runGeneration X a log =
        (Returned
           {| id := randomUUID X (length log);
              originalName := reported_name (a_file a) (randomUUID X (length log));
              stage := if String.eqb (v_status v) "flagged"
                       then "failed" else "completed";
              imageUrl := Some url;
              validation := Some {| status := v_status v;
                                    issues := v_issues v;
                                    reasoning := v_reasoning v |};
              metadata := Some {| mode := a_mode a;
                                  lens := a_lens a;
                                  mood := a_mood a;
                                  engine := "pollinations";
                                  location := a_location a;
                                  aspectRatio := a_aspectRatio a |};
              error := None |},
         (log ++ started
              ++ [CallValidateMarineScene (validatorArgs a url "pollinations")])%list)).
Proof.
  intros Hkey Hprompt Hbase Hfal primary fallback started.
  subst primary fallback started. cbn in Hprompt, Hbase, Hfal.
  split.
  - run_paths; norm_log; unify_answers;
      eexists; eexists; cbn [app]; reflexivity.
  - intros url v Hpoll Hval. cbn in Hpoll, Hval.
    unfold falArgs in Hpoll; cbn in Hpoll.
    run_paths; norm_log; unify_answers;
      unfold pollinationsArgs in *; unify_answers; reflexivity.
Qed.

Lemma runGeneration_fal_throw_falls_back_witness :
  generateWithFal Sample.fal_down 3
    (falArgs (Sample.args_of Sample.hull) "base64:PNG1"
             (Sample.prompt_of (promptArgs (Sample.args_of Sample.hull))))
    = Threw (ThrownError "fal: 503")
  /\ fst (runGeneration Sample.fal_down (Sample.args_of Sample.hull) [])
     = Returned
         {| id := "uuid-0";
            originalName := "hull.png";
            stage := "completed";
            imageUrl := Some "https://image.pollinations.ai/out.png";
            validation := Some {| status := "approved";
                                  issues := [];
                                  reasoning := "hull sits in the water" |};
            metadata := Some {| mode := "running";
                                lens := "wide";
                                mood := "sunrise";
                                engine := "pollinations";
                                location := "Fort Lauderdale, Florida";
                                aspectRatio := "3:2" |};
            error := None |}.
Proof.
  split.
  - reflexivity.
  - destruct (runGeneration_fal_throw_falls_back
                Sample.fal_down (Sample.args_of Sample.hull) []
                (Sample.prompt_of (promptArgs (Sample.args_of Sample.hull)))
                "base64:PNG1" (ThrownError "fal: 503")
                eq_refl eq_refl eq_refl eq_refl) as [_ Hnormal].
    rewrite (Hnormal "https://image.pollinations.ai/out.png" Sample.approved
                     eq_refl eq_refl).
    reflexivity.
Defined.

(** ** The ordinary result *)

(** What an ordinary result echoes: the parameters of the call, and one of
    the two engine names. *)
Lemma runGeneration_metadata_echo
      (X : Extern) (a : GenerationArgs) (log log' : Log)
      (r : GenerationResult) (m : Metadata) :
  runGeneration X a log = (Returned r, log') ->
  metadata r = Some m ->
  mode m = a_mode a /\ lens m = a_lens a /\ mood m = a_mood a /\
  location m = a_location a /\ aspectRatio m = a_aspectRatio a /\
  (engine m = "fal-ai/flux-pro" \/ engine m = "pollinations").
Proof.
  run_paths; intros H Hm; injection H as <- _; cbn in Hm;
    try discriminate; injection Hm as <-; cbn; intuition.
Qed.



(** ** The engine label *)

(** X21. The label is right when the primary generator resolves to a URL that
    is not empty: that URL is returned, the fallback is not called, and
    the engine is ["fal-ai/flux-pro"]. *)
Lemma runGeneration_engine_of_primary_url
      (X : Extern) (a : GenerationArgs) (log : Log)
      (p : Prompt) (base64 url : string) (v : ValidationOutcome) :
  truthy_opt (FAL_KEY X) = true ->
  buildPrompt X (1 + length log) (promptArgs a) = Returned p ->
  fileToBase64 X (2 + length log) (a_file a) = Returned base64 ->
  generateWithFal X (3 + length log) (falArgs a base64 p) = Returned url ->
  JsString.truthy url = true ->
  validateMarineScene X (4 + length log) (validatorArgs a url "fal-ai/flux-pro")
    = Returned v ->
  exists r,
    runGeneration X a log =
      (Returned r,
       (log ++ [ CallRandomUUID;
                 CallBuildPrompt (promptArgs a);
                 CallFileToBase64 (a_file a);
                 CallGenerateWithFal (falArgs a base64 p);
                 CallValidateMarineScene (validatorArgs a url "fal-ai/flux-pro") ])%list)
    /\ imageUrl r = Some url
    /\ option_map engine (metadata r) = Some "fal-ai/flux-pro".
Proof.
  intros Hkey Hprompt Hbase Hfal Hurl Hval.
  cbn in Hprompt, Hbase, Hfal, Hval.
  run_paths; norm_log; unify_answers; try discriminate;
    eexists; (split; [reflexivity | ]); cbn; auto.
Qed.

(** X22. Without a configured key (unset or empty) no item calls the primary
    generator, whether the item succeeds or fails, and a result with
    metadata has the engine ["pollinations"]. *)
Lemma runGeneration_engine_without_key
      (X : Extern) (a : GenerationArgs) (log : Log)
      (out : Outcome GenerationResult) (evs : list Event) :
  truthy_opt (FAL_KEY X) = false ->
  runGeneration X a log = (out, (log ++ evs)%list) ->
  (forall args, ~ In (CallGenerateWithFal args) evs)
  /\ (forall r m, out = Returned r -> metadata r = Some m ->
                  engine m = "pollinations").
Proof.
  intros Hkey. run_paths; unify_answers; try discriminate;
    intros H; read_events H;
    (split;
     [ intros args Hin; cbn in Hin; intuition discriminate
     | intros r m Hr Hm; injection Hr as <-; cbn in Hm;
       try discriminate Hm; injection Hm as <-; reflexivity ]).
Qed.

(** C5, at the input where it fails. With [FAL_KEY] configured, when the
    primary generator resolves to the empty string, the fallback
    generator is called and its URL is the one returned, yet the
    metadata (and the expectation sent to the validator) name
    ["fal-ai/flux-pro"] as the engine. *)
Theorem runGeneration_engine_after_empty_primary_url
        (X : Extern) (a : GenerationArgs) (log : Log)
        (p : Prompt) (base64 url : string) (v : ValidationOutcome) :
  truthy_opt (FAL_KEY X) = true ->
  buildPrompt X (1 + length log) (promptArgs a) = Returned p ->
  fileToBase64 X (2 + length log) (a_file a) = Returned base64 ->
  generateWithFal X (3 + length log) (falArgs a base64 p) = Returned EmptyString ->
  generateWithPollinations X (4 + length log) (pollinationsArgs a p) = Returned url ->
  validateMarineScene X (5 + length log) (validatorArgs a url "fal-ai/flux-pro")
    = Returned v ->
  exists r,
    runGeneration X a log =
      (Returned r,
       (log ++ [ CallRandomUUID;
                 CallBuildPrompt (promptArgs a);
                 CallFileToBase64 (a_file a);
                 CallGenerateWithFal (falArgs a base64 p);
                 CallGenerateWithPollinations (pollinationsArgs a p);
                 CallValidateMarineScene (validatorArgs a url "fal-ai/flux-pro") ])%list)
    /\ imageUrl r = Some url
    /\ option_map engine (metadata r) = Some "fal-ai/flux-pro"
    /\ error r = None.
Proof.
  intros Hkey Hprompt Hbase Hfal Hpoll Hval.
  cbn in Hprompt, Hbase, Hfal, Hpoll, Hval.
  run_paths; norm_log; unify_answers; try discriminate;
    eexists; (split; [reflexivity | ]); cbn; auto.
Qed.

Lemma runGeneration_engine_after_empty_primary_url_witness :
  generateWithFal Sample.fal_empty 3
    (falArgs (Sample.args_of Sample.hull) "base64:PNG1"
             (Sample.prompt_of (promptArgs (Sample.args_of Sample.hull))))
    = Returned EmptyString
  /\ exists r,
      fst (runGeneration Sample.fal_empty (Sample.args_of Sample.hull) []) = Returned r
      /\ imageUrl r = Some "https://image.pollinations.ai/out.png"
      /\ option_map engine (metadata r) = Some "fal-ai/flux-pro".
Proof.
  split; [reflexivity | ].
  destruct (runGeneration_engine_after_empty_primary_url
              Sample.fal_empty (Sample.args_of Sample.hull) []
              (Sample.prompt_of (promptArgs (Sample.args_of Sample.hull)))
              "base64:PNG1" "https://image.pollinations.ai/out.png" Sample.approved
              eq_refl eq_refl eq_refl eq_refl eq_refl eq_refl)
    as (r & Hrun & Hurl & Hengine & _).
  exists r. rewrite Hrun. auto.
Defined.

(** ** The batch *)

Section Batches.

Context {Num : Type}.
Variable Number_toString : Num -> string.
Variable JSON_parse : string -> option (Json Num).
Variable X : Extern.
Variable formData : FormData.

Local Abbreviation Batch' := (Batch Number_toString JSON_parse X formData).
Local Abbreviation args := (POST_args Number_toString JSON_parse formData).

Lemma POST_loop_batch (files : list File) :
  forall (log : Log) (done : list GenerationResult),
  exists results log',
    POST_loop Number_toString JSON_parse X formData files done log
      = (Returned (done ++ results)%list, log')
    /\ Batch' files log results log'.
Proof.
  induction files as [| file files IH]; intros log done.
  - exists [], log. cbn. rewrite app_nil_r. split; [reflexivity | constructor].
  - destruct (runGeneration_returns X (args file) log) as (r & evs & Hrun).
    destruct (IH (log ++ evs)%list (done ++ [r])%list) as (rs & log' & Hloop & Hbatch).
    exists (r :: rs), log'. split.
    + cbn. unfold bind. fold args. rewrite Hrun, Hloop.
      rewrite <- app_assoc. reflexivity.
    + econstructor; eassumption.
Qed.

Lemma Batch_length (files : list File) (log log' : Log)
      (results : list GenerationResult) :
  Batch' files log results log' -> length results = length files.
Proof.
  induction 1; cbn; congruence.
Qed.

Lemma Batch_names (files : list File) (log log' : Log)
      (results : list GenerationResult) :
  Batch' files log results log' ->
  Forall2 (fun file r => originalName r = reported_name file (id r)) files results.
Proof.
  induction 1 as [| file files log log1 log2 r rs Hrun _ IH]; constructor.
  - apply (runGeneration_identity _ _ _ _ _ Hrun).
  - exact IH.
Qed.

Lemma runGeneration_events (file : File) (log log' : Log)
      (out : Outcome GenerationResult) :
  runGeneration X (args file) log = (out, log') ->
  exists rest,
    log' = (log ++ CallRandomUUID :: CallBuildPrompt (promptArgs (args file)) :: rest)%list
    /\ Forall (event_of_form Number_toString JSON_parse formData) rest.
Proof.
  run_paths; intros H; injection H as _ <-; norm_log;
    eexists; (split; [reflexivity | ]);
    repeat constructor.
Qed.

Lemma Batch_events (files : list File) (log log' : Log)
      (results : list GenerationResult) :
  Batch' files log results log' ->
  exists evs,
    log' = (log ++ evs)%list
    /\ Forall (event_of_form Number_toString JSON_parse formData) evs.
Proof.
  induction 1 as [log | file files log log1 log2 r rs Hrun _ (evs & -> & Hevs)].
  - exists []. rewrite app_nil_r. split; [reflexivity | constructor].
  - destruct (runGeneration_events _ _ _ _ Hrun) as (rest & -> & Hrest).
    eexists. rewrite <- app_assoc. split; [reflexivity | ].
    cbn. repeat constructor. apply Forall_app. split; assumption.
Qed.

Lemma Batch_first_prompt (file : File) (files : list File) (log log' : Log)
      (results : list GenerationResult) :
  Batch' (file :: files) log results log' ->
  In (CallBuildPrompt (promptArgs (args file))) log'.
Proof.
  inversion 1 as [| ? ? ? log1 ? r rs Hrun Hrest]; subst.
  destruct (runGeneration_events _ _ _ _ Hrun) as (rest & -> & _).
  destruct (Batch_events _ _ _ _ Hrest) as (evs & -> & _).
  apply in_or_app. left. apply in_or_app. right. right. left. reflexivity.
Qed.

Lemma Batch_results (files : list File) (log log' : Log)
      (results : list GenerationResult) :
  Batch' files log results log' ->
  Forall (result_of_form formData) results.
Proof.
  induction 1 as [| file files log log1 log2 r rs Hrun _ IH]; constructor; [| exact IH].
  unfold result_of_form. destruct (metadata r) as [m |] eqn:Hm; [| exact I].
  destruct (runGeneration_metadata_echo _ _ _ _ _ _ Hrun Hm)
    as (? & ? & ? & ? & ? & _).
  cbn in *. intuition.
Qed.

End Batches.

(** ** The endpoint *)

Lemma only_files_nil (entries : list FormDataEntryValue) :
  (forall f, ~ In (EntryFile f) entries) -> only_files entries = [].
Proof.
  induction entries as [| [s | f] entries IH]; intros Hnone; cbn.
  - reflexivity.
  - apply IH. intros f Hin. apply (Hnone f). right. exact Hin.
  - exfalso. apply (Hnone f). left. reflexivity.
Qed.

Lemma POST_batch {Num : Type} (Number_toString : Num -> string)
      (JSON_parse : string -> option (Json Num)) (X : Extern)
      (formData : FormData) (log : Log) :
  POST_files formData <> [] ->
  exists results log',
    POST Number_toString JSON_parse X formData log
      = (Returned {| http_status := 200;
                     body := BatchBody (POST_location formData) (POST_mode formData)
                                       (POST_lens formData) (POST_mood formData)
                                       results |},
         log')
    /\ Batch Number_toString JSON_parse X formData (POST_files formData) log results log'.
Proof.
  intros Hfiles.
  destruct (POST_loop_batch Number_toString JSON_parse X formData
                            (POST_files formData) log [])
    as (results & log' & Hloop & Hbatch).
  exists results, log'. split; [| exact Hbatch].
  unfold POST. destruct (POST_files formData) as [| file files] eqn:E.
  - contradiction.
  - unfold bind. rewrite Hloop. reflexivity.
Qed.

(** C3. A request with at least one file answers with status 200 and a
    list of results that has one result per file, in the order of the
    files in the form: the results are those of running the files one
    after the other, whatever the world outside answers, so an item that
    fails neither stops the later ones nor removes their results. *)
Theorem POST_one_result_per_file
        {Num : Type} (Number_toString : Num -> string)
        (JSON_parse : string -> option (Json Num)) (X : Extern)
        (formData : FormData) (log : Log) :
  POST_files formData <> [] ->
  exists results log',
    POST Number_toString JSON_parse X formData log
      = (Returned {| http_status := 200;
                     body := BatchBody (POST_location formData) (POST_mode formData)
                                       (POST_lens formData) (POST_mood formData)
                                       results |},
         log')
    /\ Batch Number_toString JSON_parse X formData (POST_files formData) log results log'
    /\ length results = length (POST_files formData)
    /\ Forall2 (fun file r => originalName r = reported_name file (id r))
               (POST_files formData) results.
Proof.
  intros Hfiles.
  destruct (POST_batch Number_toString JSON_parse X formData log Hfiles)
    as (results & log' & Hpost & Hbatch).
  exists results, log'. repeat split.
  - exact Hpost.
  - exact Hbatch.
  - exact (Batch_length _ _ _ _ _ _ _ _ Hbatch).
  - exact (Batch_names _ _ _ _ _ _ _ _ Hbatch).
Qed.

Lemma POST_one_result_per_file_witness :
  POST_files Sample.form = [Sample.hull; Sample.broken; Sample.deck]
  /\ exists results,
      fst (POST Sample.Number_toString Sample.JSON_parse Sample.one_bad_file
                Sample.form [])
        = Returned {| http_status := 200;
                      body := BatchBody "Fort Lauderdale, Florida" "anchored"
                                        "telephoto" "sunset" results |}
      /\ map originalName results = ["hull.png"; "broken.png"; "deck.png"]
      /\ map stage results = ["completed"; "failed"; "completed"]
      /\ length results = 3.
Proof.
  split; [reflexivity | ].
  assert (Hfiles : POST_files Sample.form <> []) by discriminate.
  destruct (POST_one_result_per_file Sample.Number_toString Sample.JSON_parse
              Sample.one_bad_file Sample.form [] Hfiles)
    as (results & log' & Hpost & _ & Hlen & _).
  exists results. rewrite Hpost. split; [reflexivity | ].
  vm_compute in Hpost. injection Hpost as <- _.
  repeat split.
Defined.

(** C9. A request without a file under ["images"] is answered with status
    400 and the error ["No images provided."], and the log is left as it
    was: no prompt is built, nothing is generated or validated. *)
Theorem POST_no_images
        {Num : Type} (Number_toString : Num -> string)
        (JSON_parse : string -> option (Json Num)) (X : Extern)
        (formData : FormData) (log : Log) :
  (forall f, ~ In (EntryFile f) (FormData_getAll formData "images")) ->
  POST Number_toString JSON_parse X formData log
    = (Returned {| http_status := 400; body := ErrorBody "No images provided." |}, log).
Proof.
  intros Hnone. unfold POST, POST_files.
  rewrite (only_files_nil _ Hnone). reflexivity.
Qed.

Lemma POST_no_images_witness :
  (forall f, ~ In (EntryFile f) (FormData_getAll Sample.odd_form "images"))
  /\ POST Sample.Number_toString Sample.JSON_parse Sample.healthy Sample.odd_form []
     = (Returned {| http_status := 400; body := ErrorBody "No images provided." |}, []).
Proof.
  assert (Hnone : forall f, ~ In (EntryFile f) (FormData_getAll Sample.odd_form "images")).
  { intros f Hin. exact Hin. }
  split; [exact Hnone | ].
  exact (POST_no_images Sample.Number_toString Sample.JSON_parse Sample.healthy
                        Sample.odd_form [] Hnone).
Defined.

(** ** The parameters read from the form *)

Lemma field_or_string (formData : FormData) (name fallback s : string) :
  FormData_get formData name = Some (EntryString s) ->
  field_or formData name fallback = s.
Proof.
  unfold field_or. intros ->. reflexivity.
Qed.

Lemma field_or_absent (formData : FormData) (name fallback : string) :
  FormData_get formData name = None ->
  field_or formData name fallback = fallback.
Proof.
  unfold field_or. intros ->. reflexivity.
Qed.

(** C6, at the inputs where it fails.  The mode is the text of the form
    field, whatever it is: it is echoed in the response and in the
    metadata of every result, and it is the mode handed to prompt
    construction. *)
Theorem POST_mode_not_checked
        {Num : Type} (Number_toString : Num -> string)
        (JSON_parse : string -> option (Json Num)) (X : Extern)
        (formData : FormData) (log : Log) (s : string) :
  FormData_get formData "mode" = Some (EntryString s) ->
  POST_files formData <> [] ->
  exists location lens mood results log',
    POST Number_toString JSON_parse X formData log
      = (Returned {| http_status := 200;
                     body := BatchBody location s lens mood results |}, log')
    /\ Forall (fun r => forall m, metadata r = Some m -> mode m = s) results
    /\ exists args, In (CallBuildPrompt args) log' /\ pa_mode args = s.
Proof.
  intros Hmode Hfiles.
  destruct (POST_batch Number_toString JSON_parse X formData log Hfiles)
    as (results & log' & Hpost & Hbatch).
  assert (Hs : POST_mode formData = s) by (apply field_or_string; exact Hmode).
  exists (POST_location formData), (POST_lens formData), (POST_mood formData),
         results, log'.
  rewrite <- Hs. split; [exact Hpost | split].
  - pose proof (Batch_results _ _ _ _ _ _ _ _ Hbatch) as Hres.
    rewrite Forall_forall in *. intros r Hin m Hm.
    specialize (Hres r Hin). unfold result_of_form in Hres.
    rewrite Hm in Hres. apply Hres.
  - destruct (POST_files formData) as [| file files]; [contradiction | ].
    eexists. split.
    + exact (Batch_first_prompt _ _ _ _ _ _ _ _ _ Hbatch).
    + reflexivity.
Qed.

Lemma POST_mode_not_checked_witness :
  ~ In "turbo" MODES
  /\ exists results log',
      POST Sample.Number_toString Sample.JSON_parse Sample.healthy
           Sample.odd_upload []
        = (Returned {| http_status := 200;
                       body := BatchBody "local waterways" "turbo" "" "sunrise"
                                         results |}, log')
      /\ Forall (fun r => forall m, metadata r = Some m -> mode m = "turbo") results.
Proof.
  split.
  - cbn. intros [H | [H | [H | H]]]; try discriminate H. exact H.
  - assert (Hfiles : POST_files Sample.odd_upload <> []) by discriminate.
    destruct (POST_mode_not_checked Sample.Number_toString Sample.JSON_parse
                Sample.healthy Sample.odd_upload [] "turbo" eq_refl Hfiles)
      as (location & lens & mood & results & log' & Hpost & Hmeta & _).
    exists results, log'. split; [| exact Hmeta].
    rewrite Hpost. vm_compute in Hpost. injection Hpost as <- <- <- _ _.
    reflexivity.
Defined.

(** C7. The aspect ratio is always one of ["1:1"], ["4:3"], ["3:2"],
    ["16:9"]: the field's text when that is ["1:1"], ["4:3"] or ["16:9"],
    and ["3:2"] for any other entry and for an absent field; it is the
    ratio of every generator call that the request makes. *)
Theorem POST_aspectRatio_enumerated
        {Num : Type} (Number_toString : Num -> string)
        (JSON_parse : string -> option (Json Num)) (X : Extern)
        (formData : FormData) :
  In (POST_aspectRatio formData) ["1:1"; "4:3"; "3:2"; "16:9"]
  /\ (forall entry,
         FormData_get formData "aspectRatio" = Some entry ->
         In (Entry_toString entry) ["1:1"; "4:3"; "16:9"] ->
         POST_aspectRatio formData = Entry_toString entry)
  /\ (forall entry,
         FormData_get formData "aspectRatio" = Some entry ->
         ~ In (Entry_toString entry) ["1:1"; "4:3"; "16:9"] ->
         POST_aspectRatio formData = "3:2")
  /\ (FormData_get formData "aspectRatio" = None ->
      POST_aspectRatio formData = "3:2")
  /\ (forall log out log',
         POST Number_toString JSON_parse X formData log = (out, log') ->
         exists evs,
           log' = (log ++ evs)%list
           /\ (forall args, In (CallGenerateWithFal args) evs ->
                            fa_aspectRatio args = POST_aspectRatio formData)
           /\ (forall args, In (CallGenerateWithPollinations args) evs ->
                            po_aspectRatio args = POST_aspectRatio formData)).
Proof.
  assert (Hcases :
            forall raw,
              (if (String.eqb raw "1:1" || String.eqb raw "4:3"
                   || String.eqb raw "16:9")%bool then raw else "3:2")
              = (if in_dec string_dec raw ["1:1"; "4:3"; "16:9"] then raw else "3:2")).
  { intros raw.
    destruct (in_dec string_dec raw ["1:1"; "4:3"; "16:9"]) as [Hin | Hout].
    - destruct Hin as [<- | [<- | [<- | []]]]; reflexivity.
    - destruct (String.eqb_spec raw "1:1") as [-> | _];
        [exfalso; apply Hout; left; reflexivity | ].
      destruct (String.eqb_spec raw "4:3") as [-> | _];
        [exfalso; apply Hout; right; left; reflexivity | ].
      destruct (String.eqb_spec raw "16:9") as [-> | _];
        [exfalso; apply Hout; right; right; left; reflexivity | ].
      reflexivity. }
  unfold POST_aspectRatio, POST_aspectRatioRaw. cbv zeta. rewrite Hcases.
  repeat split.
  - destruct (in_dec _ _ _) as [Hin | _]; cbn in *; intuition.
  - intros entry Hget Hin. unfold field_or. rewrite Hget.
    destruct (in_dec _ _ _); [reflexivity | contradiction].
  - intros entry Hget Hout. unfold field_or. rewrite Hget.
    destruct (in_dec _ _ _); [contradiction | reflexivity].
  - intros Hget. unfold field_or. rewrite Hget. reflexivity.
  - intros log out log' Hpost. rewrite <- Hcases.
    change (if (String.eqb (field_or formData "aspectRatio" "3:2") "1:1"
                || String.eqb (field_or formData "aspectRatio" "3:2") "4:3"
                || String.eqb (field_or formData "aspectRatio" "3:2") "16:9")%bool
            then field_or formData "aspectRatio" "3:2" else "3:2")
      with (POST_aspectRatio formData).
    destruct (POST_files formData) as [| file files] eqn:Hfiles.
    + unfold POST in Hpost. rewrite Hfiles in Hpost. injection Hpost as _ <-.
      exists []. rewrite app_nil_r. repeat split; intros args [].
    + assert (Hne : POST_files formData <> []) by (rewrite Hfiles; discriminate).
      destruct (POST_batch Number_toString JSON_parse X formData log Hne)
        as (results & log'' & Hpost' & Hbatch).
      rewrite Hpost' in Hpost. injection Hpost as _ <-.
      destruct (Batch_events _ _ _ _ _ _ _ _ Hbatch) as (evs & -> & Hevs).
      exists evs. rewrite Forall_forall in Hevs.
      repeat split; intros args Hin; exact (Hevs _ Hin).
Qed.

Lemma POST_aspectRatio_enumerated_witness :
  POST_aspectRatio Sample.form = "16:9" /\ POST_aspectRatio Sample.odd_form = "3:2".
Proof.
  destruct (POST_aspectRatio_enumerated Sample.Number_toString Sample.JSON_parse
              Sample.healthy Sample.form) as (_ & Hkept & _).
  destruct (POST_aspectRatio_enumerated Sample.Number_toString Sample.JSON_parse
              Sample.healthy Sample.odd_form) as (_ & _ & Hother & _).
  split.
  - apply (Hkept (EntryString "16:9") eq_refl). cbn. auto.
  - apply (Hother (EntryString "2:1") eq_refl).
    cbn. intros [H | [H | [H | H]]]; try discriminate H. exact H.
Defined.

(** ** Defaults *)

Lemma trimStart_allWhiteSpace (s : string) :
  JsString.allWhiteSpace s = true -> JsString.trimStart s = EmptyString.
Proof.
  unfold JsString.allWhiteSpace.
  induction s as [| c s IH]; cbn; intros Hall.
  - reflexivity.
  - apply andb_prop in Hall. destruct Hall as [Hc Hs].
    rewrite Hc. exact (IH Hs).
Qed.

Lemma trim_allWhiteSpace (s : string) :
  JsString.allWhiteSpace s = true -> JsString.trim s = EmptyString.
Proof.
  intros Hall. unfold JsString.trim.
  rewrite (trimStart_allWhiteSpace s Hall). reflexivity.
Qed.

(** C10. An absent field gets its default: location ["local waterways"],
    mode ["running"], lens ["wide"], mood ["sunrise"], aspect ratio
    ["3:2"].  A location made of white space only gets the default too.
    An empty mode, lens or mood is kept as the empty string. *)
Theorem POST_defaults (formData : FormData) :
  (FormData_get formData "location" = None ->
   POST_location formData = "local waterways")
  /\ (FormData_get formData "mode" = None -> POST_mode formData = "running")
  /\ (FormData_get formData "lens" = None -> POST_lens formData = "wide")
  /\ (FormData_get formData "mood" = None -> POST_mood formData = "sunrise")
  /\ (FormData_get formData "aspectRatio" = None ->
      POST_aspectRatio formData = "3:2")
  /\ (forall s,
         FormData_get formData "location" = Some (EntryString s) ->
         JsString.allWhiteSpace s = true ->
         POST_location formData = "local waterways")
  /\ (FormData_get formData "mode" = Some (EntryString EmptyString) ->
      POST_mode formData = EmptyString)
  /\ (FormData_get formData "lens" = Some (EntryString EmptyString) ->
      POST_lens formData = EmptyString)
  /\ (FormData_get formData "mood" = Some (EntryString EmptyString) ->
      POST_mood formData = EmptyString).
Proof.
  unfold POST_location, POST_mode, POST_lens, POST_mood, POST_aspectRatio,
    POST_aspectRatioRaw.
  repeat split.
  - intros ->. reflexivity.
  - apply field_or_absent.
  - apply field_or_absent.
  - apply field_or_absent.
  - intros H. rewrite (field_or_absent _ _ _ H). reflexivity.
  - intros s -> Hall. cbn [Entry_toString].
    rewrite (trim_allWhiteSpace s Hall). reflexivity.
  - apply field_or_string.
  - apply field_or_string.
  - apply field_or_string.
Qed.

Lemma POST_defaults_witness :
  POST_location Sample.odd_form = "local waterways"
  /\ POST_mood Sample.odd_form = "sunrise"
  /\ POST_lens Sample.odd_form = EmptyString.
Proof.
  destruct (POST_defaults Sample.odd_form)
    as (_ & _ & _ & Hmood & _ & Hblank & _ & Hlens & _).
  split; [| split].
  - exact (Hblank "   " eq_refl eq_refl).
  - exact (Hmood eq_refl).
  - exact (Hlens eq_refl).
Defined.

(** ** The emphasis list *)

Lemma map_throwing_option_map {A B C : Type} (f : A -> option B) (g : B -> C)
      (entries : list A) :
  map_throwing (fun x => option_map g (f x)) entries
  = option_map (map g) (map_throwing f entries).
Proof.
  induction entries as [| x entries IH]; cbn.
  - reflexivity.
  - destruct (f x) as [y |]; cbn; [| reflexivity].
    rewrite IH. destruct (map_throwing f entries); reflexivity.
Qed.

(** C8 as stated fails where the conversion of an entry to a string
    throws.  The field [[{"toString":1}]] is a JSON-encoded array of one
    object; [String] of that object throws, the [catch] splits the raw
    text, and the emphasis list is the raw text itself, which is no list
    of converted entries. *)
Lemma POST_emphasis_conversion_throw_counterexample :
  FormData_get Sample.odd_form "emphasis" = Some (EntryString Sample.shadowed_text)
  /\ Sample.JSON_parse Sample.shadowed_text
     = Some (JArray [JObject [("toString", JNumber 1)]])
  /\ POST_emphasis Sample.Number_toString Sample.JSON_parse Sample.odd_form
     = [Sample.shadowed_text]
  /\ ~ (exists strings,
           map_throwing (js_String Sample.Number_toString)
                        [JObject [("toString", JNumber 1)]] = Some strings
           /\ POST_emphasis Sample.Number_toString Sample.JSON_parse Sample.odd_form
              = filter JsString.truthy (map JsString.trim strings)).
Proof.
  repeat split; try reflexivity.
  intros (strings & Hconv & _). discriminate Hconv.
Qed.

(** C8, amended.  When the emphasis field is a JSON-encoded array whose
    entries all convert to strings, the emphasis list is those strings,
    trimmed, without the ones that trim to the empty string, in order.
    When the conversion of an entry throws, the list is the raw text
    split at commas, the pieces trimmed and the empty ones dropped.  When
    the field is absent or a file, the list is empty.  That list is the
    one handed to prompt construction. *)
Theorem POST_emphasis_of_array
        {Num : Type} (Number_toString : Num -> string)
        (JSON_parse : string -> option (Json Num)) (formData : FormData) :
  JSON_parse EmptyString = None ->
  (forall raw parsed strings,
      FormData_get formData "emphasis" = Some (EntryString raw) ->
      JSON_parse raw = Some (JArray parsed) ->
      map_throwing (js_String Number_toString) parsed = Some strings ->
      POST_emphasis Number_toString JSON_parse formData
      = filter JsString.truthy (map JsString.trim strings))
  /\ (forall raw parsed,
         FormData_get formData "emphasis" = Some (EntryString raw) ->
         JSON_parse raw = Some (JArray parsed) ->
         map_throwing (js_String Number_toString) parsed = None ->
         POST_emphasis Number_toString JSON_parse formData
         = filter JsString.truthy (map JsString.trim (JsString.split "," raw)))
  /\ (FormData_get formData "emphasis" = None ->
      POST_emphasis Number_toString JSON_parse formData = [])
  /\ (forall f, FormData_get formData "emphasis" = Some (EntryFile f) ->
                POST_emphasis Number_toString JSON_parse formData = [])
  /\ (forall file,
         pa_emphasis (promptArgs (POST_args Number_toString JSON_parse formData file))
         = POST_emphasis Number_toString JSON_parse formData).
Proof.
  intros Hempty. unfold POST_emphasis, parseJsonArray, parseJsonArray_try.
  repeat split.
  - intros raw parsed strings -> Hparse Hconv.
    destruct raw as [| c raw]; [congruence | ]. cbn [JsString.truthy negb].
    rewrite Hparse, map_throwing_option_map, Hconv. reflexivity.
  - intros raw parsed -> Hparse Hconv.
    destruct raw as [| c raw]; [congruence | ]. cbn [JsString.truthy negb].
    rewrite Hparse, map_throwing_option_map, Hconv. reflexivity.
  - intros ->. reflexivity.
  - intros f ->. reflexivity.
Qed.

Lemma POST_emphasis_of_array_witness :
  Sample.JSON_parse EmptyString = None
  /\ Sample.JSON_parse Sample.emphasis_text
     = Some (JArray [JString " glassy water "; JNumber 7; JString "  "; JBool true])
  /\ POST_emphasis Sample.Number_toString Sample.JSON_parse Sample.form
     = ["glassy water"; "7"; "true"].
Proof.
  destruct (POST_emphasis_of_array Sample.Number_toString Sample.JSON_parse
              Sample.form eq_refl) as (Harray & _).
  split; [reflexivity | split; [reflexivity | ]].
  rewrite (Harray Sample.emphasis_text
                  [JString " glassy water "; JNumber 7; JString "  "; JBool true]
                  [" glassy water "; "7"; "  "; "true"]
                  eq_refl eq_refl eq_refl).
  reflexivity.
Defined.

(** ** Trimmed strings *)

Lemma trimStart_head (s : string) :
  JsString.trimStart s = EmptyString
  \/ exists c r, JsString.trimStart s = String c r /\ JsString.isWhiteSpace c = false.
Proof.
  induction s as [| c s IH]; cbn.
  - left. reflexivity.
  - destruct (JsString.isWhiteSpace c) eqn:Hc.
    + exact IH.
    + right. exists c, s. split; [reflexivity | exact Hc].
Qed.

Lemma trimEnd_idempotent (s : string) :
  JsString.trimEnd (JsString.trimEnd s) = JsString.trimEnd s.
Proof.
  induction s as [| c s IH]; cbn.
  - reflexivity.
  - destruct (JsString.trimEnd s) as [| c' r'] eqn:Hr.
    + destruct (JsString.isWhiteSpace c) eqn:Hc; cbn; [reflexivity | ].
      rewrite Hc. reflexivity.
    + change (JsString.trimEnd (String c (String c' r')))
        with (match JsString.trimEnd (String c' r') with
              | EmptyString =>
                  if JsString.isWhiteSpace c then EmptyString else String c EmptyString
              | String c0 r0 => String c (String c0 r0)
              end).
      rewrite IH. reflexivity.
Qed.

Lemma trimEnd_head (c : ascii) (r : string) :
  JsString.isWhiteSpace c = false ->
  exists r', JsString.trimEnd (String c r) = String c r'.
Proof.
  intros Hc. cbn. destruct (JsString.trimEnd r) as [| c' r'].
  - rewrite Hc. eexists. reflexivity.
  - eexists. reflexivity.
Qed.

Lemma trim_trimmed (s : string) : trimmed (JsString.trim s).
Proof.
  unfold trimmed, JsString.trim.
  destruct (trimStart_head s) as [-> | (c & r & -> & Hc)].
  - reflexivity.
  - destruct (trimEnd_head c r Hc) as (r' & Hr).
    rewrite Hr. cbn [JsString.trimStart]. rewrite Hc.
    rewrite <- Hr. apply trimEnd_idempotent.
Qed.

Lemma contains_trimStart (c : ascii) (s : string) :
  contains c (JsString.trimStart s) -> contains c s.
Proof.
  unfold contains. induction s as [| d s IH]; cbn.
  - intros [].
  - destruct (JsString.isWhiteSpace d); [| exact (fun H => H)].
    intros H. right. exact (IH H).
Qed.

Lemma contains_trimEnd (c : ascii) (s : string) :
  contains c (JsString.trimEnd s) -> contains c s.
Proof.
  unfold contains. induction s as [| d s IH]; cbn.
  - intros [].
  - destruct (JsString.trimEnd s) as [| d' r'].
    + destruct (JsString.isWhiteSpace d); cbn; [intros [] | ].
      intros [H | []]. left. exact H.
    + cbn. intros [H | H]; [left; exact H | right; exact (IH H)].
Qed.

Lemma contains_trim (c : ascii) (s : string) :
  contains c (JsString.trim s) -> contains c s.
Proof.
  intros H. apply contains_trimStart, contains_trimEnd. exact H.
Qed.

Lemma split_pieces_free (sep : ascii) (s : string) :
  Forall (fun piece => ~ contains sep piece) (JsString.split sep s).
Proof.
  unfold contains. induction s as [| c s IH]; cbn.
  - constructor; [intros [] | constructor].
  - destruct (Ascii.eqb_spec c sep) as [-> | Hc].
    + constructor; [intros [] | exact IH].
    + destruct (JsString.split sep s) as [| piece pieces].
      * constructor; [| constructor]. cbn. intros [H | []]. exact (Hc H).
      * inversion IH as [| ? ? Hpiece Hpieces]; subst.
        constructor; [| exact Hpieces].
        cbn. intros [H | H]; [exact (Hc H) | exact (Hpiece H)].
Qed.

(** What survives [.map(trim).filter(Boolean)]. *)
Lemma trim_filter_Forall (P : string -> Prop) (pieces : list string) :
  (forall piece, In piece pieces ->
                 JsString.truthy (JsString.trim piece) = true ->
                 P (JsString.trim piece)) ->
  Forall P (filter JsString.truthy (map JsString.trim pieces)).
Proof.
  intros HP. apply Forall_forall. intros s Hin.
  apply filter_In in Hin. destruct Hin as [Hin Htruthy].
  apply in_map_iff in Hin. destruct Hin as (piece & <- & Hpiece).
  exact (HP piece Hpiece Htruthy).
Qed.

Lemma trim_filter_clean (tags : list string) :
  Forall (fun tag => JsString.truthy tag = true /\ trimmed tag) tags ->
  filter JsString.truthy (map JsString.trim tags) = tags.
Proof.
  induction 1 as [| tag tags [Htruthy Htrim] _ IH]; cbn.
  - reflexivity.
  - rewrite Htrim, Htruthy, IH. reflexivity.
Qed.

Lemma map_throwing_strings {Num : Type} (Number_toString : Num -> string)
      (tags : list string) :
  map_throwing (js_String Number_toString) (map JString tags) = Some tags.
Proof.
  induction tags as [| tag tags IH]; cbn.
  - reflexivity.
  - cbn in IH. rewrite IH. reflexivity.
Qed.

(** ** More on [parseJsonArray] *)

Section ParseJsonArrayFacts.

Context {Num : Type}.
Variable Number_toString : Num -> string.
Variable JSON_parse : string -> option (Json Num).

Lemma split_trim_filter_clean (s : string) :
  Forall (fun entry => JsString.truthy entry = true /\ trimmed entry
                       /\ ~ contains "," entry)
         (split_trim_filter s).
Proof.
  unfold split_trim_filter. apply trim_filter_Forall.
  intros piece Hin Htruthy. split; [exact Htruthy | split].
  - apply trim_trimmed.
  - intros Hcomma. apply contains_trim in Hcomma.
    pose proof (split_pieces_free "," s) as Hfree.
    rewrite Forall_forall in Hfree. exact (Hfree piece Hin Hcomma).
Qed.

(** X1. Whatever the field holds and whatever [JSON.parse] makes of it,
    no entry of the emphasis list is empty and every entry is trimmed. *)
Theorem parseJsonArray_entries_trimmed (raw : option FormDataEntryValue) :
  Forall (fun entry => JsString.truthy entry = true /\ trimmed entry)
         (parseJsonArray Number_toString JSON_parse raw).
Proof.
  assert (Hsplit : forall s,
             Forall (fun entry => JsString.truthy entry = true /\ trimmed entry)
                    (split_trim_filter s)).
  { intros s. eapply Forall_impl; [| apply split_trim_filter_clean].
    cbn. intros entry (? & ? & _). split; assumption. }
  destruct raw as [[text | file] |]; cbn; try constructor.
  destruct (negb (JsString.truthy text)); [constructor | ].
  unfold parseJsonArray_try.
  destruct (JSON_parse text) as [[| b | n | s | items | fields] |];
    try constructor; try apply Hsplit.
  rewrite map_throwing_option_map.
  destruct (map_throwing (js_String Number_toString) items) as [strings |]; cbn.
  - apply trim_filter_Forall. intros piece _ Htruthy.
    split; [exact Htruthy | apply trim_trimmed].
  - apply Hsplit.
Qed.

(** X2. When the text of the field is not the JSON text of an array (it is
    no JSON at all, or a JSON string, number, boolean, [null] or object),
    no entry of the emphasis list contains a comma. *)
Theorem parseJsonArray_comma_free (text : string) :
  (forall items, JSON_parse text <> Some (JArray items)) ->
  Forall (fun entry => ~ contains "," entry)
         (parseJsonArray Number_toString JSON_parse (Some (EntryString text))).
Proof.
  intros Hnot.
  assert (Hsplit : forall s,
             Forall (fun entry => ~ contains "," entry) (split_trim_filter s)).
  { intros s. eapply Forall_impl; [| apply split_trim_filter_clean].
    cbn. intros entry (_ & _ & H). exact H. }
  cbn. destruct (negb (JsString.truthy text)); [constructor | ].
  unfold parseJsonArray_try.
  destruct (JSON_parse text) as [[| b | n | s | items | fields] |] eqn:Hparse;
    try constructor; try apply Hsplit.
  exfalso. exact (Hnot items eq_refl).
Qed.

(** X3. An array of strings that are trimmed and not empty comes back as
    it is: such a list survives the conversion, the trimming and the
    filtering unchanged. *)
Theorem parseJsonArray_clean_strings (text : string) (tags : list string) :
  JsString.truthy text = true ->
  JSON_parse text = Some (JArray (map JString tags)) ->
  Forall (fun tag => JsString.truthy tag = true /\ trimmed tag) tags ->
  parseJsonArray Number_toString JSON_parse (Some (EntryString text)) = tags.
Proof.
  intros Htext Hparse Hclean. cbn. rewrite Htext. cbn.
  unfold parseJsonArray_try. rewrite Hparse.
  rewrite map_throwing_option_map, map_throwing_strings. cbn.
  apply trim_filter_clean. exact Hclean.
Qed.

End ParseJsonArrayFacts.

Lemma parseJsonArray_comma_free_witness :
  parseJsonArray Sample.Number_toString Sample.JSON_parse
                 (Some (EntryString "wake, foam , ,skyline"))
  = ["wake"; "foam"; "skyline"]
  /\ Forall (fun entry => ~ contains "," entry)
            (parseJsonArray Sample.Number_toString Sample.JSON_parse
                            (Some (EntryString "wake, foam , ,skyline"))).
Proof.
  split; [reflexivity | ].
  apply (parseJsonArray_comma_free Sample.Number_toString Sample.JSON_parse
                                   "wake, foam , ,skyline").
  intros items H. discriminate H.
Defined.

Lemma parseJsonArray_clean_strings_witness :
  parseJsonArray Sample.Number_toString SamplePage.JSON_parse
                 (Some (EntryString (SamplePage.JSON_stringify DEFAULT_EMPHASIS)))
  = DEFAULT_EMPHASIS.
Proof.
  apply (parseJsonArray_clean_strings Sample.Number_toString SamplePage.JSON_parse
           (SamplePage.JSON_stringify DEFAULT_EMPHASIS) DEFAULT_EMPHASIS).
  - reflexivity.
  - reflexivity.
  - repeat constructor.
Defined.

(** ** More on [runGeneration] *)

(** X4. A result is of one of two shapes.  Either it has no error and
    carries an image URL, a validation and metadata; or its stage is
    ["failed"], it has an error string, and it carries none of the three.
    Its stage is ["completed"] or ["failed"]. *)
Theorem runGeneration_result_shape
        (X : Extern) (a : GenerationArgs) (log log' : Log) (r : GenerationResult) :
  runGeneration X a log = (Returned r, log') ->
  (stage r = "completed" \/ stage r = "failed")
  /\ ((error r = None
       /\ exists url v m,
           imageUrl r = Some url /\ validation r = Some v /\ metadata r = Some m)
      \/ (stage r = "failed"
          /\ (exists message, error r = Some message)
          /\ imageUrl r = None /\ validation r = None /\ metadata r = None)).
Proof.
  run_paths; intros H; injection H as <- _; cbn;
    try match goal with
        | |- context [String.eqb ?s "flagged"] => destruct (String.eqb s "flagged")
        end;
    (split; [auto | ]);
    first [ left; split; [reflexivity | ];
            eexists; eexists; eexists; repeat split; reflexivity
          | right; repeat split; eexists; reflexivity ].
Qed.

Lemma runGeneration_result_shape_witness :
  exists r,
    fst (runGeneration Sample.one_bad_file (Sample.args_of Sample.broken) [])
      = Returned r
    /\ stage r = "failed" /\ imageUrl r = None.
Proof.
  destruct (runGeneration_returns Sample.one_bad_file (Sample.args_of Sample.broken) [])
    as (r & evs & Hrun).
  exists r. rewrite Hrun. split; [reflexivity | ].
  destruct (runGeneration_result_shape _ _ _ _ _ Hrun) as (_ & [Hgood | Hbad]).
  - exfalso. destruct Hgood as (Herr & _).
    vm_compute in Hrun. injection Hrun as <- _. discriminate Herr.
  - destruct Hbad as (Hstage & _ & Hurl & _). split; assumption.
Defined.

Lemma runGeneration_engine_of_primary_url_witness :
  exists r,
    fst (runGeneration Sample.healthy (Sample.args_of Sample.hull) []) = Returned r
    /\ imageUrl r = Some "https://fal.media/out.png"
    /\ option_map engine (metadata r) = Some "fal-ai/flux-pro".
Proof.
  destruct (runGeneration_engine_of_primary_url
              Sample.healthy (Sample.args_of Sample.hull) []
              (Sample.prompt_of (promptArgs (Sample.args_of Sample.hull)))
              "base64:PNG1" "https://fal.media/out.png" Sample.approved
              eq_refl eq_refl eq_refl eq_refl eq_refl eq_refl)
    as (r & Hrun & Hurl & Hengine).
  exists r. rewrite Hrun. auto.
Defined.

Lemma runGeneration_engine_without_key_witness :
  (forall args,
      ~ In (CallGenerateWithFal args)
           (snd (runGeneration Sample.one_bad_file (Sample.args_of Sample.broken) [])))
  /\ (forall r m,
         fst (runGeneration Sample.one_bad_file (Sample.args_of Sample.hull) [])
           = Returned r ->
         metadata r = Some m -> engine m = "pollinations").
Proof.
  split.
  - exact (proj1 (runGeneration_engine_without_key
                    Sample.one_bad_file (Sample.args_of Sample.broken) []
                    (fst (runGeneration Sample.one_bad_file
                                        (Sample.args_of Sample.broken) []))
                    (snd (runGeneration Sample.one_bad_file
                                        (Sample.args_of Sample.broken) []))
                    eq_refl eq_refl)).
  - exact (proj2 (runGeneration_engine_without_key
                    Sample.one_bad_file (Sample.args_of Sample.hull) []
                    (fst (runGeneration Sample.one_bad_file
                                        (Sample.args_of Sample.hull) []))
                    (snd (runGeneration Sample.one_bad_file
                                        (Sample.args_of Sample.hull) []))
                    eq_refl eq_refl)).
Defined.

Lemma count_app (p : Event -> bool) (evs evs' : list Event) :
  count p (evs ++ evs')%list = count p evs + count p evs'.
Proof.
  unfold count. rewrite filter_app, length_app. reflexivity.
Qed.

(** The calls of one item. *)
Lemma runGeneration_calls
      (X : Extern) (a : GenerationArgs) (log log' : Log)
      (out : Outcome GenerationResult) :
  runGeneration X a log = (out, log') ->
  exists evs,
    log' = (log ++ evs)%list
    /\ count isBuildPrompt evs = 1
    /\ count isGenerate evs <= 2
    /\ count isValidate evs <= 1
    /\ (count isValidate evs = 1 -> 1 <= count isGenerate evs).
Proof.
  run_paths; intros H; injection H as _ <-; norm_log;
    eexists; (split; [reflexivity | ]); cbn; repeat split; lia.
Qed.

Lemma validates_after_generating_split
      (before after : list Event) (args : ValidatorArgs) :
  forall seen,
    validates_after_generating seen
      (before ++ CallValidateMarineScene args :: after)%list = true ->
    seen = true \/ 1 <= count isGenerate before.
Proof.
  induction before as [| ev before IH]; intros seen Hordered; cbn in Hordered.
  - apply andb_prop in Hordered. left. exact (proj1 Hordered).
  - destruct (isValidate ev) eqn:Hvalidate.
    + apply andb_prop in Hordered. left. exact (proj1 Hordered).
    + destruct (IH _ Hordered) as [Hseen | Hcount].
      * apply orb_prop in Hseen. destruct Hseen as [Hseen | Hgen].
        -- left. exact Hseen.
        -- right. unfold count. cbn. rewrite Hgen. cbn. lia.
      * right. unfold count in *. cbn. destruct (isGenerate ev); cbn; lia.
Qed.

Lemma runGeneration_validates_late
      (X : Extern) (a : GenerationArgs) (log : Log)
      (out : Outcome GenerationResult) (evs : list Event) :
  runGeneration X a log = (out, (log ++ evs)%list) ->
  validates_after_generating false evs = true.
Proof.
  run_paths; intros H; read_events H; reflexivity.
Qed.

(** X5. An item builds its prompt exactly once, calls a generator at most
    twice (the primary one, then the fallback) and the validator at most
    once; wherever the validator call stands among the item's events, a
    generator call stands before it. *)
Theorem runGeneration_call_budget (X : Extern) (a : GenerationArgs) (log : Log) :
  exists r evs,
    runGeneration X a log = (Returned r, (log ++ evs)%list)
    /\ count isBuildPrompt evs = 1
    /\ count isGenerate evs <= 2
    /\ count isValidate evs <= 1
    /\ (forall before args after,
           evs = (before ++ CallValidateMarineScene args :: after)%list ->
           1 <= count isGenerate before).
Proof.
  destruct (runGeneration_returns X a log) as (r & evs & Hrun).
  destruct (runGeneration_calls X a log _ _ Hrun)
    as (evs' & Hlog & Hprompt & Hgenerate & Hvalidate & _).
  apply app_inv_head in Hlog. subst evs'.
  exists r, evs. repeat split; try assumption.
  intros before args after Hsplit.
  pose proof (runGeneration_validates_late X a log _ _ Hrun) as Hordered.
  rewrite Hsplit in Hordered.
  destruct (validates_after_generating_split before after args false Hordered)
    as [Hseen | Hcount]; [discriminate Hseen | exact Hcount].
Qed.

Lemma runGeneration_call_budget_witness :
  exists evs,
    snd (runGeneration Sample.healthy (Sample.args_of Sample.hull) []) = evs
    /\ count isBuildPrompt evs = 1
    /\ count isValidate evs <= 1
    /\ 1 <= count isGenerate (firstn 4 evs).
Proof.
  destruct (runGeneration_call_budget Sample.healthy (Sample.args_of Sample.hull) [])
    as (r & evs & Hrun & Hprompt & _ & Hvalidate & Hbefore).
  exists evs. rewrite Hrun. split; [reflexivity | ].
  split; [exact Hprompt | split; [exact Hvalidate | ]].
  pose proof Hrun as Hvalue. vm_compute in Hvalue. injection Hvalue as _ Hevs.
  apply (Hbefore (firstn 4 evs)
                 (validatorArgs (Sample.args_of Sample.hull)
                                "https://fal.media/out.png" "fal-ai/flux-pro")
                 []).
  rewrite <- Hevs. reflexivity.
Defined.

(** X6. When prompt construction or the base64 encoding throws, the item
    stops there: neither generator and no validator is called. *)
Theorem runGeneration_fails_fast
        (X : Extern) (a : GenerationArgs) (log : Log)
        (out : Outcome GenerationResult) (evs : list Event) (e : Thrown) :
  runGeneration X a log = (out, (log ++ evs)%list) ->
  buildPrompt X (1 + length log) (promptArgs a) = Threw e
  \/ fileToBase64 X (2 + length log) (a_file a) = Threw e ->
  count isGenerate evs = 0 /\ count isValidate evs = 0.
Proof.
  intros Hrun Hthrow. cbn in Hthrow. revert Hrun.
  run_paths; intros H; read_events H;
    destruct Hthrow as [Hthrow | Hthrow]; unify_answers; split; reflexivity.
Qed.

Lemma runGeneration_fails_fast_witness :
  fileToBase64 Sample.one_bad_file 2 Sample.broken = Threw (ThrownError "cannot read file")
  /\ count isGenerate
           (snd (runGeneration Sample.one_bad_file (Sample.args_of Sample.broken) []))
     = 0.
Proof.
  split; [reflexivity | ].
  refine (proj1 (runGeneration_fails_fast
                   Sample.one_bad_file (Sample.args_of Sample.broken) []
                   (fst (runGeneration Sample.one_bad_file (Sample.args_of Sample.broken) []))
                   (snd (runGeneration Sample.one_bad_file (Sample.args_of Sample.broken) []))
                   (ThrownError "cannot read file") eq_refl (or_intror eq_refl))).
Defined.

(** X23. The validator is told what the result reports: for a result
    with metadata, the validator call of the item carries the image URL
    of the result, the location of the request, and the expectations
    naming the mode, lens and mood of the request and the engine of the
    metadata. *)
Theorem runGeneration_validator_told_engine
        (X : Extern) (a : GenerationArgs) (log : Log)
        (r : GenerationResult) (evs : list Event) (m : Metadata) :
  runGeneration X a log = (Returned r, (log ++ evs)%list) ->
  metadata r = Some m ->
  exists url,
    imageUrl r = Some url
    /\ last evs CallRandomUUID
       = CallValidateMarineScene
           {| va_imageUrl := url;
              va_location := a_location a;
              va_expectations :=
                [ "mode: " ++ a_mode a;
                  "lens profile: " ++ a_lens a;
                  "mood: " ++ a_mood a;
                  "engine: " ++ engine m ] |}.
Proof.
  run_paths; intros H Hm; read_events H; cbn in Hm; try discriminate Hm;
    injection Hm as <-; eexists; split; reflexivity.
Qed.

Lemma runGeneration_validator_told_engine_witness :
  In (CallValidateMarineScene
        {| va_imageUrl := "https://fal.media/out.png";
           va_location := "Fort Lauderdale, Florida";
           va_expectations :=
             [ "mode: running"; "lens profile: wide"; "mood: sunrise";
               "engine: fal-ai/flux-pro" ] |})
     (snd (runGeneration Sample.healthy (Sample.args_of Sample.hull) [])).
Proof.
  destruct (runGeneration_returns Sample.healthy (Sample.args_of Sample.hull) [])
    as (r & evs & Hrun).
  pose proof Hrun as Hvalue. vm_compute in Hvalue. injection Hvalue as Hr Hevs.
  destruct (runGeneration_validator_told_engine
              Sample.healthy (Sample.args_of Sample.hull) [] r evs
              {| mode := "running"; lens := "wide"; mood := "sunrise";
                 engine := "fal-ai/flux-pro";
                 location := "Fort Lauderdale, Florida"; aspectRatio := "3:2" |}
              Hrun ltac:(rewrite <- Hr; reflexivity)) as (url & Hurl & Hlast).
  rewrite Hrun. cbn [snd app]. rewrite <- Hevs in Hlast |- *.
  rewrite <- Hr in Hurl. injection Hurl as <-.
  cbn in Hlast. cbn. do 4 right. left. symmetry. exact Hlast.
Defined.

(** ** More on [POST] *)

Section BatchFacts.

Context {Num : Type}.
Variable Number_toString : Num -> string.
Variable JSON_parse : string -> option (Json Num).
Variable X : Extern.
Variable formData : FormData.

Local Abbreviation Batch' := (Batch Number_toString JSON_parse X formData).

Lemma Batch_calls (files : list File) (log log' : Log)
      (results : list GenerationResult) :
  Batch' files log results log' ->
  exists evs,
    log' = (log ++ evs)%list
    /\ count isBuildPrompt evs = length files
    /\ count isGenerate evs <= 2 * length files
    /\ count isValidate evs <= length files.
Proof.
  induction 1 as [log | file files log log1 log2 r rs Hrun _ (evs & -> & IH)].
  - exists []. rewrite app_nil_r. cbn. repeat split; lia.
  - destruct (runGeneration_calls _ _ _ _ _ Hrun) as (evs1 & -> & H1).
    exists (evs1 ++ evs)%list. rewrite <- app_assoc.
    split; [reflexivity | ].
    rewrite !count_app. cbn [length]. lia.
Qed.

Lemma Batch_ticks (files : list File) (log log' : Log)
      (results : list GenerationResult) :
  Batch' files log results log' ->
  length log <= length log'
  /\ Forall (fun r => exists t, length log <= t /\ id r = randomUUID X t) results.
Proof.
  induction 1 as [log | file files log log1 log2 r rs Hrun _ (Hle & IH)].
  - split; [lia | constructor].
  - destruct (runGeneration_identity _ _ _ _ _ Hrun) as (Hid & _).
    destruct (runGeneration_calls _ _ _ _ _ Hrun) as (evs1 & -> & Hone & _).
    rewrite length_app in *. split; [lia | ].
    constructor.
    + exists (length log). split; [lia | exact Hid].
    + eapply Forall_impl; [| exact IH]. cbn.
      intros r' (t & Ht & Hr'). exists t. split; [lia | exact Hr'].
Qed.

Lemma Batch_distinct_ids (files : list File) (log log' : Log)
      (results : list GenerationResult) :
  (forall t t', randomUUID X t = randomUUID X t' -> t = t') ->
  Batch' files log results log' ->
  NoDup (map id results).
Proof.
  intros Hinj.
  induction 1 as [log | file files log log1 log2 r rs Hrun Hrest IH]; cbn.
  - constructor.
  - constructor; [| exact IH].
    destruct (runGeneration_identity _ _ _ _ _ Hrun) as (Hid & _).
    destruct (runGeneration_calls _ _ _ _ _ Hrun) as (evs1 & -> & Hone & _).
    assert (Hgrow : length log < length (log ++ evs1)%list).
    { rewrite length_app. destruct evs1; [discriminate Hone | cbn; lia]. }
    destruct (Batch_ticks _ _ _ _ Hrest) as (_ & Hticks).
    rewrite Forall_forall in Hticks.
    intros Hin. apply in_map_iff in Hin. destruct Hin as (r' & Hsame & Hr').
    destruct (Hticks r' Hr') as (t & Ht & Hidr').
    rewrite Hid, Hidr' in Hsame. apply Hinj in Hsame. lia.
Qed.

End BatchFacts.



(** X8. A request with [n] files builds exactly [n] prompts, one per
    file, and makes at most [2 n] generator calls and at most [n]
    validator calls. *)
Theorem POST_call_budget
        {Num : Type} (Number_toString : Num -> string)
        (JSON_parse : string -> option (Json Num)) (X : Extern)
        (formData : FormData) (log : Log) :
  exists out evs,
    POST Number_toString JSON_parse X formData log = (out, (log ++ evs)%list)
    /\ count isBuildPrompt evs = length (POST_files formData)
    /\ count isGenerate evs <= 2 * length (POST_files formData)
    /\ count isValidate evs <= length (POST_files formData).
Proof.
  destruct (POST_files formData) as [| file files] eqn:Hfiles.
  - eexists. exists []. unfold POST. rewrite Hfiles, app_nil_r.
    split; [reflexivity | ]. cbn. repeat split; lia.
  - assert (Hne : POST_files formData <> []) by (rewrite Hfiles; discriminate).
    destruct (POST_batch Number_toString JSON_parse X formData log Hne)
      as (results & log' & Hpost & Hbatch).
    destruct (Batch_calls _ _ _ _ _ _ _ _ Hbatch) as (evs & -> & Hcounts).
    eexists. exists evs. rewrite Hfiles in Hcounts.
    split; [exact Hpost | exact Hcounts].
Qed.

(** X9. When the UUID source never gives the same value twice, the
    results of a batch have pairwise different ids. *)
Theorem POST_distinct_ids
        {Num : Type} (Number_toString : Num -> string)
        (JSON_parse : string -> option (Json Num)) (X : Extern)
        (formData : FormData) (log log' : Log)
        (l m le mo : string) (results : list GenerationResult) (status : nat) :
  (forall t t', randomUUID X t = randomUUID X t' -> t = t') ->
  POST Number_toString JSON_parse X formData log
    = (Returned {| http_status := status; body := BatchBody l m le mo results |}, log') ->
  NoDup (map id results).
Proof.
  intros Hinj Hpost.
  destruct (POST_files formData) as [| file files] eqn:Hfiles.
  - unfold POST in Hpost. rewrite Hfiles in Hpost. discriminate Hpost.
  - assert (Hne : POST_files formData <> []) by (rewrite Hfiles; discriminate).
    destruct (POST_batch Number_toString JSON_parse X formData log Hne)
      as (results' & log'' & Hpost' & Hbatch).
    rewrite Hpost' in Hpost. injection Hpost as _ _ _ _ _ <- _.
    exact (Batch_distinct_ids _ _ _ _ _ _ _ _ Hinj Hbatch).
Qed.

(** X10. The location used for generation is the trimmed text of the
    field when that is not empty, and ["local waterways"] when it is
    empty or the field is absent; so it is never empty and always
    trimmed. *)
Theorem POST_location_trimmed (formData : FormData) :
  (forall entry,
      FormData_get formData "location" = Some entry ->
      JsString.trim (Entry_toString entry) <> EmptyString ->
      POST_location formData = JsString.trim (Entry_toString entry))
  /\ (forall entry,
         FormData_get formData "location" = Some entry ->
         JsString.trim (Entry_toString entry) = EmptyString ->
         POST_location formData = "local waterways")
  /\ (FormData_get formData "location" = None ->
      POST_location formData = "local waterways")
  /\ POST_location formData <> EmptyString
  /\ trimmed (POST_location formData).
Proof.
  unfold POST_location, JsString.or_else.
  destruct (FormData_get formData "location") as [entry |].
  - destruct (JsString.trim (Entry_toString entry)) as [| c text] eqn:Htrim; cbn.
    + repeat split; try discriminate; try reflexivity.
      intros entry' Hentry Hfull. injection Hentry as <-. congruence.
    + repeat split; try discriminate.
      * intros entry' Hentry _. injection Hentry as <-. symmetry. exact Htrim.
      * intros entry' Hentry Hblank. injection Hentry as <-. congruence.
      * rewrite <- Htrim. apply trim_trimmed.
  - repeat split; try discriminate; reflexivity.
Qed.

Lemma POST_location_trimmed_witness :
  POST_location Sample.odd_form = "local waterways"
  /\ POST_location [("location", EntryString "  Lake Como ")] = "Lake Como".
Proof.
  split.
  - exact (proj1 (proj2 (POST_location_trimmed Sample.odd_form))
                 (EntryString "   ") eq_refl eq_refl).
  - refine (proj1 (POST_location_trimmed [("location", EntryString "  Lake Como ")])
                  (EntryString "  Lake Como ") eq_refl _).
    discriminate.
Defined.

Lemma unary_injective (t t' : nat) :
  SamplePage.unary t = SamplePage.unary t' -> t = t'.
Proof.
  revert t'. induction t as [| t IH]; intros [| t'] H;
    try reflexivity; try discriminate H.
  f_equal. apply IH. injection H as H. exact H.
Qed.

Lemma POST_distinct_ids_witness :
  exists results,
    fst (POST Sample.Number_toString Sample.JSON_parse SamplePage.counting
              Sample.form [])
      = Returned {| http_status := 200;
                    body := BatchBody "Fort Lauderdale, Florida" "anchored"
                                      "telephoto" "sunset" results |}
    /\ NoDup (map id results).
Proof.
  assert (Hfiles : POST_files Sample.form <> []) by discriminate.
  destruct (POST_batch Sample.Number_toString Sample.JSON_parse SamplePage.counting
                       Sample.form [] Hfiles) as (results & log' & Hpost & _).
  exists results. rewrite Hpost. split; [reflexivity | ].
  exact (POST_distinct_ids Sample.Number_toString Sample.JSON_parse
           SamplePage.counting Sample.form [] log' _ _ _ _ results 200
           unary_injective Hpost).
Defined.

(** ** The emphasis tags of the page *)

Lemma splitTagRuns_nonempty (inRun : bool) (input : string) :
  splitTagRuns inRun input <> [].
Proof.
  revert inRun. induction input as [| c input IH]; intros inRun; cbn.
  - discriminate.
  - destruct (isTagSeparator c).
    + destruct inRun; [apply IH | discriminate].
    + destruct (splitTagRuns false input); discriminate.
Qed.

(** The pieces are made of characters of the input that are no
    separators. *)
Lemma splitTagRuns_pieces (inRun : bool) (input : string) :
  Forall (fun piece =>
            forall c, contains c piece ->
                      contains c input /\ isTagSeparator c = false)
         (splitTagRuns inRun input).
Proof.
  unfold contains. revert inRun.
  induction input as [| d input IH]; intros inRun; cbn.
  - constructor; [intros c [] | constructor].
  - assert (Hweaken :
              forall b,
                Forall (fun piece =>
                          forall c, In c (list_ascii_of_string piece) ->
                                    (d = c \/ In c (list_ascii_of_string input))
                                    /\ isTagSeparator c = false)
                       (splitTagRuns b input)).
    { intros b. eapply Forall_impl; [| apply (IH b)]. cbn.
      intros piece H c Hc. destruct (H c Hc). auto. }
    destruct (isTagSeparator d) eqn:Hd.
    + destruct inRun; [apply Hweaken | ].
      constructor; [intros c [] | apply Hweaken].
    + pose proof (Hweaken false) as Hpieces.
      destruct (splitTagRuns false input) as [| piece pieces].
      * constructor; [| constructor]. cbn. intros c [<- | []]. auto.
      * inversion Hpieces as [| ? ? Hpiece Hrest]; subst.
        constructor; [| exact Hrest].
        cbn. intros c [<- | Hc]; [auto | exact (Hpiece c Hc)].
Qed.

(** What [.map(trim).filter(Boolean)] leaves of pieces without
    separators. *)
Lemma trim_filter_pieces_clean (pieces : list string) :
  Forall (fun piece => forall c, contains c piece -> isTagSeparator c = false) pieces ->
  Forall clean_tag (filter JsString.truthy (map JsString.trim pieces)).
Proof.
  intros Hpieces. rewrite Forall_forall in Hpieces.
  apply trim_filter_Forall.
  intros piece Hin Htruthy. split; [exact Htruthy | split].
  - apply trim_trimmed.
  - intros c Hc. apply contains_trim in Hc. exact (Hpieces piece Hin c Hc).
Qed.

(** X11. The tags that [parseTags] returns are not empty, are trimmed and
    contain neither a comma nor a line feed. *)
Theorem parseTags_clean (input : string) :
  Forall clean_tag (parseTags input).
Proof.
  unfold parseTags. apply trim_filter_pieces_clean.
  eapply Forall_impl; [| apply (splitTagRuns_pieces false input)].
  cbn. intros piece Hpiece c Hc.
  destruct (Hpiece c Hc) as (_ & Hsep). exact Hsep.
Qed.

Lemma clean_tagb_sound (s : string) : clean_tagb s = true -> clean_tag s.
Proof.
  unfold clean_tagb, clean_tag, trimmed, contains. intros H.
  apply andb_prop in H. destruct H as [H Hfree].
  apply andb_prop in H. destruct H as [Htruthy Htrim].
  split; [exact Htruthy | split].
  - apply String.eqb_eq. exact Htrim.
  - intros c Hc. rewrite forallb_forall in Hfree.
    apply negb_true_iff. exact (Hfree c Hc).
Qed.

Lemma DEFAULT_EMPHASIS_clean : Forall clean_tag DEFAULT_EMPHASIS.
Proof.
  repeat constructor; apply clean_tagb_sound; reflexivity.
Qed.

Lemma emphasisTags_tags (emphasisInput : string) :
  Forall clean_tag (emphasisTags emphasisInput).
Proof.
  unfold emphasisTags. cbv zeta.
  destruct (parseTags emphasisInput) as [| tag tags] eqn:Hparsed.
  - exact DEFAULT_EMPHASIS_clean.
  - rewrite <- Hparsed. unfold parseTags. apply trim_filter_pieces_clean.
    eapply Forall_impl; [| apply (splitTagRuns_pieces false emphasisInput)].
    cbn. intros piece Hpiece c Hc. exact (proj2 (Hpiece c Hc)).
Qed.

(** X12. The emphasis list that the page sends is the parsed tags when
    the text has a tag, and the default phrases when it has none; so it
    is never empty, and its tags are not empty, trimmed and free of
    commas and line feeds. *)
Theorem emphasisTags_clean (emphasisInput : string) :
  (parseTags emphasisInput <> [] ->
   emphasisTags emphasisInput = parseTags emphasisInput)
  /\ (parseTags emphasisInput = [] ->
      emphasisTags emphasisInput = DEFAULT_EMPHASIS)
  /\ emphasisTags emphasisInput <> []
  /\ Forall clean_tag (emphasisTags emphasisInput).
Proof.
  split; [| split; [| split]].
  - unfold emphasisTags. cbv zeta.
    destruct (parseTags emphasisInput); [intros H; contradiction | reflexivity].
  - unfold emphasisTags. cbv zeta. intros ->. reflexivity.
  - unfold emphasisTags. cbv zeta.
    destruct (parseTags emphasisInput); discriminate.
  - apply emphasisTags_tags.
Qed.

Lemma emphasisTags_clean_witness :
  emphasisTags "wake, foam" = ["wake"; "foam"]
  /\ emphasisTags ",," = DEFAULT_EMPHASIS.
Proof.
  split.
  - refine (proj1 (emphasisTags_clean "wake, foam") _). discriminate.
  - exact (proj1 (proj2 (emphasisTags_clean ",,")) eq_refl).
Defined.

Lemma trim_filter_blank (pieces : list string) :
  Forall (fun piece => JsString.allWhiteSpace piece = true) pieces ->
  filter JsString.truthy (map JsString.trim pieces) = [].
Proof.
  induction 1 as [| piece pieces Hblank _ IH]; cbn.
  - reflexivity.
  - rewrite (trim_allWhiteSpace piece Hblank). exact IH.
Qed.

(** X13. A text made of white space, commas and line feeds only has no
    tag, and the page sends the default phrases for it. *)
Theorem emphasisTags_blank (emphasisInput : string) :
  (forall c, contains c emphasisInput ->
             JsString.isWhiteSpace c = true \/ isTagSeparator c = true) ->
  parseTags emphasisInput = [] /\ emphasisTags emphasisInput = DEFAULT_EMPHASIS.
Proof.
  intros Hblank.
  assert (Hnone : parseTags emphasisInput = []).
  { unfold parseTags. apply trim_filter_blank.
    eapply Forall_impl; [| apply (splitTagRuns_pieces false emphasisInput)].
    cbn. intros piece Hpiece. unfold JsString.allWhiteSpace.
    apply forallb_forall. intros c Hc.
    destruct (Hpiece c Hc) as (Hin & Hsep).
    destruct (Hblank c Hin) as [Hws | Hs]; [exact Hws | congruence]. }
  split; [exact Hnone | ].
  unfold emphasisTags. cbv zeta. rewrite Hnone. reflexivity.
Qed.

Lemma emphasisTags_blank_witness :
  emphasisTags " , ,  " = DEFAULT_EMPHASIS.
Proof.
  refine (proj2 (emphasisTags_blank " , ,  " _)).
  intros c Hc. cbn in Hc.
  repeat (destruct Hc as [<- | Hc]; [auto | ]). destruct Hc.
Defined.

Lemma append_empty_r (s : string) : s ++ EmptyString = s.
Proof.
  induction s as [| c s IH]; cbn; [reflexivity | rewrite IH; reflexivity].
Qed.

(** A text that starts with a character of a tag splits the same way
    inside and outside a run. *)
Lemma splitTagRuns_start (c : ascii) (rest : string) (inRun : bool) :
  isTagSeparator c = false ->
  splitTagRuns inRun (String c rest) = splitTagRuns false (String c rest).
Proof.
  intros Hc. cbn. rewrite Hc. reflexivity.
Qed.

(** A prefix without separators stays in the first piece. *)
Lemma splitTagRuns_prefix (tag rest : string) :
  (forall c, contains c tag -> isTagSeparator c = false) ->
  splitTagRuns false (tag ++ rest)
  = match splitTagRuns false rest with
    | [] => []
    | piece :: pieces => (tag ++ piece) :: pieces
    end.
Proof.
  unfold contains. induction tag as [| c tag IH]; intros Hfree.
  - cbn. destruct (splitTagRuns false rest); reflexivity.
  - cbn. rewrite (Hfree c (or_introl eq_refl)).
    rewrite IH by (intros d Hd; apply Hfree; right; exact Hd).
    destruct (splitTagRuns false rest) eqn:E; [| reflexivity].
    exfalso. eapply splitTagRuns_nonempty. exact E.
Qed.

Lemma splitTagRuns_lines (tag : string) (tags : list string) :
  Forall clean_tag (tag :: tags) ->
  splitTagRuns false
    (JsString.join (String (ascii_of_nat 10) EmptyString) (tag :: tags))
  = tag :: tags.
Proof.
  revert tag. induction tags as [| next tags IH]; intros tag Hclean;
    inversion Hclean as [| ? ? (Htruthy & _ & Hfree) Hrest]; subst.
  - cbn [JsString.join]. rewrite <- (append_empty_r tag) at 1.
    rewrite (splitTagRuns_prefix tag EmptyString Hfree). cbn [splitTagRuns].
    f_equal. apply append_empty_r.
  - change (JsString.join (String (ascii_of_nat 10) EmptyString) (tag :: next :: tags))
      with (tag ++ String (ascii_of_nat 10)
                    (JsString.join (String (ascii_of_nat 10) EmptyString) (next :: tags))).
    rewrite (splitTagRuns_prefix tag _ Hfree).
    change (splitTagRuns false
              (String (ascii_of_nat 10)
                 (JsString.join (String (ascii_of_nat 10) EmptyString) (next :: tags))))
      with (EmptyString
              :: splitTagRuns true
                   (JsString.join (String (ascii_of_nat 10) EmptyString) (next :: tags))).
    cbv iota. f_equal; [apply append_empty_r | ].
    assert (Hstart :
              exists c rest,
                JsString.join (String (ascii_of_nat 10) EmptyString) (next :: tags)
                = String c rest /\ isTagSeparator c = false).
    { inversion Hrest as [| ? ? (Hnext & _ & Hnextfree) _]; subst.
      destruct next as [| c next]; [discriminate Hnext | ].
      exists c. destruct tags as [| third tags].
      - exists next. split; [reflexivity | ].
        apply Hnextfree. left. reflexivity.
      - eexists. split; [reflexivity | ].
        apply Hnextfree. left. reflexivity. }
    destruct Hstart as (c & rest & Hjoin & Hc).
    rewrite Hjoin, (splitTagRuns_start c rest true Hc), <- Hjoin.
    apply IH. exact Hrest.
Qed.

(** X14. Tags written one per line are read back as they are: joining
    tags that are not empty, trimmed and free of commas and line feeds
    with line feeds and parsing the text gives the same tags. *)
Theorem parseTags_lines (tags : list string) :
  Forall clean_tag tags ->
  parseTags (JsString.join (String (ascii_of_nat 10) EmptyString) tags) = tags.
Proof.
  intros Hclean. unfold parseTags. destruct tags as [| tag tags].
  - reflexivity.
  - rewrite (splitTagRuns_lines tag tags Hclean).
    apply trim_filter_clean.
    eapply Forall_impl; [| exact Hclean].
    cbn. intros t (? & ? & _). split; assumption.
Qed.

Lemma parseTags_lines_witness :
  parseTags (JsString.join (String (ascii_of_nat 10) EmptyString) DEFAULT_EMPHASIS)
  = DEFAULT_EMPHASIS.
Proof.
  exact (parseTags_lines DEFAULT_EMPHASIS DEFAULT_EMPHASIS_clean).
Defined.

(** ** The request of the page *)

Lemma images_prefix_get (uploads : list LocalUpload) (rest : FormData) (name : string) :
  String.eqb "images" name = false ->
  FormData_get
    (map (fun entry => ("images", EntryFile (lu_file entry))) uploads ++ rest)%list name
  = FormData_get rest name.
Proof.
  intros Hname. induction uploads as [| entry uploads IH]; cbn [map app FormData_get].
  - reflexivity.
  - rewrite Hname. exact IH.
Qed.

Lemma files_prefix_get (files : list File) (rest : FormData) (name : string) :
  String.eqb "images" name = false ->
  FormData_get (map (fun file => ("images", EntryFile file)) files ++ rest)%list name
  = FormData_get rest name.
Proof.
  intros Hname. induction files as [| file files IH]; cbn [map app FormData_get].
  - reflexivity.
  - rewrite Hname. exact IH.
Qed.

Lemma files_prefix_files (files : list File) (rest : FormData) :
  only_files
    (FormData_getAll (map (fun file => ("images", EntryFile file)) files ++ rest)%list
                     "images")
  = (files ++ only_files (FormData_getAll rest "images"))%list.
Proof.
  induction files as [| file files IH]; cbn.
  - reflexivity.
  - rewrite IH. reflexivity.
Qed.

Lemma plain_name_truthy (s : string) : plain_name s -> JsString.truthy s = true.
Proof.
  unfold plain_name. intros H. apply andb_prop in H. exact (proj1 H).
Qed.

Lemma Forall2_chain {A B C : Type} (P : A -> B -> Prop) (Q : B -> C -> Prop)
      (R : A -> C -> Prop) (xs : list A) (ys : list B) (zs : list C) :
  (forall x y z, P x y -> Q y z -> R x z) ->
  Forall2 P xs ys -> Forall2 Q ys zs -> Forall2 R xs zs.
Proof.
  intros Hchain HP. revert zs.
  induction HP as [| x y xs ys Hxy _ IH]; intros zs HQ;
    inversion HQ; subst; constructor; eauto.
Qed.

(** A delivered field of the page. *)
Lemma delivered_field (name value : string) (entry : string * FormDataEntryValue) :
  plain_name name ->
  delivered_entry (name, EntryString value) entry ->
  exists value',
    entry = (name, EntryString value') /\ (single_line value -> value' = value).
Proof.
  intros Hplain H. inversion H as [? name' ? value' Hname Hvalue |]; subst.
  rewrite (Hname Hplain). exists value'. split; [reflexivity | exact Hvalue].
Qed.

(** The delivered files of the queue. *)
Lemma delivered_images (uploads : list LocalUpload) :
  forall received,
    Forall2 delivered_entry
            (map (fun entry => ("images", EntryFile (lu_file entry))) uploads)
            received ->
    exists files',
      received = map (fun file => ("images", EntryFile file)) files'
      /\ Forall2 (fun upload file' =>
                    plain_name (file_name (lu_file upload)) ->
                    file_name file' = file_name (lu_file upload))
                 uploads files'.
Proof.
  induction uploads as [| upload uploads IH]; intros received H;
    inversion H as [| ? entry ? rest Hentry Hrest]; subst.
  - exists []. split; [reflexivity | constructor].
  - destruct (IH rest Hrest) as (files' & -> & Hfiles).
    inversion Hentry as [| ? name' ? file' Hname Hfile]; subst.
    rewrite (Hname eq_refl).
    exists (file' :: files'). split; [reflexivity | ].
    constructor; [exact Hfile | exact Hfiles].
Qed.

Section PageFacts.

Context {Num : Type}.
Variable Number_toString : Num -> string.
Variable JSON_parse : string -> option (Json Num).
Variable JSON_stringify : list string -> string.

Local Abbreviation body_of := (requestBody JSON_stringify).

(** The form that arrives for the body of the page. *)
Lemma delivered_body (st : PageState) (received : FormData) :
  delivered (body_of st) received ->
  exists files' location' mode' mood' lens' aspectRatio' emphasis',
    received
    = (map (fun file => ("images", EntryFile file)) files'
       ++ [ ("location", EntryString location');
            ("mode", EntryString mode');
            ("mood", EntryString mood');
            ("lens", EntryString lens');
            ("aspectRatio", EntryString aspectRatio');
            ("emphasis", EntryString emphasis') ])%list
    /\ Forall2 (fun upload file' =>
                  plain_name (file_name (lu_file upload)) ->
                  file_name file' = file_name (lu_file upload))
               (st_files st) files'
    /\ (single_line (st_location st) -> location' = st_location st)
    /\ (single_line (st_mode st) -> mode' = st_mode st)
    /\ (single_line (st_mood st) -> mood' = st_mood st)
    /\ (single_line (st_lens st) -> lens' = st_lens st)
    /\ (single_line (st_aspectRatio st) -> aspectRatio' = st_aspectRatio st).
Proof.
  unfold delivered, requestBody. intros H.
  apply Forall2_app_inv_l in H. destruct H as (images & fields & Himages & Hfields & ->).
  destruct (delivered_images _ _ Himages) as (files' & -> & Hfiles).
  inversion Hfields as [| ? e1 ? r1 H1 T1]; subst.
  inversion T1 as [| ? e2 ? r2 H2 T2]; subst.
  inversion T2 as [| ? e3 ? r3 H3 T3]; subst.
  inversion T3 as [| ? e4 ? r4 H4 T4]; subst.
  inversion T4 as [| ? e5 ? r5 H5 T5]; subst.
  inversion T5 as [| ? e6 ? r6 H6 T6]; subst.
  inversion T6; subst.
  destruct (delivered_field "location" _ _ eq_refl H1) as (location' & -> & Hlocation).
  destruct (delivered_field "mode" _ _ eq_refl H2) as (mode' & -> & Hmode).
  destruct (delivered_field "mood" _ _ eq_refl H3) as (mood' & -> & Hmood).
  destruct (delivered_field "lens" _ _ eq_refl H4) as (lens' & -> & Hlens).
  destruct (delivered_field "aspectRatio" _ _ eq_refl H5) as (aspectRatio' & -> & Haspect).
  destruct (delivered_field "emphasis" _ _ eq_refl H6) as (emphasis' & -> & _).
  exists files', location', mode', mood', lens', aspectRatio', emphasis'.
  repeat split; assumption || reflexivity.
Qed.

(** X15. What the endpoint reads from the form that arrives for the body
    of the page, when the entries arrive one for one and in order: as
    many files as the queue holds, each under the name of the queued file
    at its place when that name is plain; the mode, mood and lens of the
    page, and its location trimmed (the default when that is empty),
    when they have no line break; the aspect ratio of the page when that
    is one of the four of the page, and ["3:2"] for any other ratio
    without a line break. *)
Theorem requestBody_parameters (st : PageState) (received : FormData) :
  delivered (body_of st) received ->
  length (POST_files received) = length (st_files st)
  /\ Forall2 (fun upload file' =>
                plain_name (file_name (lu_file upload)) ->
                file_name file' = file_name (lu_file upload))
             (st_files st) (POST_files received)
  /\ (single_line (st_location st) ->
      POST_location received
      = JsString.or_else (JsString.trim (st_location st)) "local waterways")
  /\ (single_line (st_mode st) -> POST_mode received = st_mode st)
  /\ (single_line (st_mood st) -> POST_mood received = st_mood st)
  /\ (single_line (st_lens st) -> POST_lens received = st_lens st)
  /\ (In (st_aspectRatio st) ASPECTS ->
      POST_aspectRatio received = st_aspectRatio st)
  /\ (single_line (st_aspectRatio st) -> ~ In (st_aspectRatio st) ASPECTS ->
      POST_aspectRatio received = "3:2").
Proof.
  intros Hdelivered.
  destruct (delivered_body st received Hdelivered)
    as (files' & location' & mode' & mood' & lens' & aspectRatio' & emphasis'
        & -> & Hfiles & Hlocation & Hmode & Hmood & Hlens & Haspect).
  unfold POST_files, POST_location, POST_mode, POST_mood, POST_lens,
    POST_aspectRatio, POST_aspectRatioRaw, field_or.
  rewrite files_prefix_files.
  rewrite !files_prefix_get by reflexivity. cbn. rewrite app_nil_r.
  split; [symmetry; exact (Forall2_length Hfiles) | ].
  split; [exact Hfiles | ].
  split; [intros H; rewrite (Hlocation H); reflexivity | ].
  split; [exact Hmode | ].
  split; [exact Hmood | ].
  split; [exact Hlens | ].
  split.
  - intros Hin.
    assert (Hsingle : single_line (st_aspectRatio st)).
    { destruct Hin as [<- | [<- | [<- | [<- | []]]]]; reflexivity. }
    rewrite (Haspect Hsingle).
    destruct Hin as [<- | [<- | [<- | [<- | []]]]]; reflexivity.
  - intros Hsingle Hout. rewrite (Haspect Hsingle).
    destruct (String.eqb_spec (st_aspectRatio st) "1:1") as [E | _];
      [exfalso; apply Hout; rewrite E; cbn; auto | ].
    destruct (String.eqb_spec (st_aspectRatio st) "4:3") as [E | _];
      [exfalso; apply Hout; rewrite E; cbn; auto | ].
    destruct (String.eqb_spec (st_aspectRatio st) "16:9") as [E | _];
      [exfalso; apply Hout; rewrite E; cbn; auto | ].
    reflexivity.
Qed.

(** X16. When [JSON.parse] reads back the array that [JSON.stringify]
    wrote, the emphasis list that the endpoint hands to prompt
    construction is the emphasis list of the page. *)
Theorem requestBody_emphasis (st : PageState) :
  JSON_parse EmptyString = None ->
  JSON_parse (JSON_stringify (emphasisTags (st_emphasisInput st)))
    = Some (JArray (map JString (emphasisTags (st_emphasisInput st)))) ->
  POST_emphasis Number_toString JSON_parse (body_of st)
  = emphasisTags (st_emphasisInput st).
Proof.
  intros Hempty Hround.
  unfold POST_emphasis, requestBody.
  rewrite images_prefix_get by reflexivity. cbn [FormData_get String.eqb Ascii.eqb Bool.eqb].
  unfold parseJsonArray, parseJsonArray_try.
  destruct (JSON_stringify (emphasisTags (st_emphasisInput st))) as [| c text] eqn:Htext;
    [congruence | ].
  cbn [JsString.truthy negb]. rewrite Hround.
  rewrite map_throwing_option_map, map_throwing_strings. cbn [option_map].
  apply trim_filter_clean.
  eapply Forall_impl; [| apply (emphasisTags_tags (st_emphasisInput st))].
  cbn. intros tag (? & ? & _). split; assumption.
Qed.

(** X17. A submission with a queue that is not empty sends one request
    and settles: the page is not processing afterwards, and either the
    response was ok and readable, the error is cleared and the results
    are those of the response, or an error message is shown and the
    results are empty.  The queue and the form are left as they were. *)
Theorem handleProcess_settles
        (st cur : PageState) (fetch : FormData -> FetchOutcome) :
  st_files st <> [] ->
  let final := apply_updates (fst (handleProcess JSON_stringify st fetch)) cur in
  snd (handleProcess JSON_stringify st fetch) = [body_of st]
  /\ st_isProcessing final = false
  /\ ((exists results,
          fetch (body_of st) = RespondedOk (Returned results)
          /\ st_error final = None /\ st_results final = results)
      \/ (exists message,
             (forall results, fetch (body_of st) <> RespondedOk (Returned results))
             /\ st_error final = Some message /\ st_results final = []))
  /\ st_files final = st_files cur
  /\ st_location final = st_location cur
  /\ st_mode final = st_mode cur
  /\ st_mood final = st_mood cur
  /\ st_lens final = st_lens cur
  /\ st_aspectRatio final = st_aspectRatio cur
  /\ st_emphasisInput final = st_emphasisInput cur.
Proof.
  intros Hfiles. unfold handleProcess.
  destruct (st_files st) as [| upload uploads]; [contradiction | ].
  cbv zeta.
  destruct (fetch (body_of st)) as [e | detail | [results | e]] eqn:Hfetch;
    cbn; (split; [reflexivity | ]); (split; [reflexivity | ]);
    (split; [| repeat split]).
  - right. eexists. repeat split. intros results H. discriminate H.
  - right. eexists. repeat split. intros results H. discriminate H.
  - left. exists results. repeat split.
  - right. eexists. repeat split. intros results H. discriminate H.
Qed.

(** X18. The page and the endpoint together: when the entries of the
    request of a queue that is not empty arrive one for one and in order,
    the endpoint answers the form that arrived and the answer reaches the
    page, then the page shows no error, is not processing, and has one
    result per queued file, in queue order: the result at the place of a
    queued file with a plain name reports that name.  This holds whatever
    the providers did. *)
Theorem handleProcess_with_endpoint
        (X : Extern) (st cur : PageState) (fetch : FormData -> FetchOutcome)
        (request : Request) (received : FormData)
        (log log' : Log) (response : Response) :
  st_files st <> [] ->
  delivered (body_of st) received ->
  request_formData request = Returned received ->
  POST_request Number_toString JSON_parse X request log = (Returned response, log') ->
  response_outcome response = Some (fetch (body_of st)) ->
  let final := apply_updates (fst (handleProcess JSON_stringify st fetch)) cur in
  st_error final = None
  /\ st_isProcessing final = false
  /\ length (st_results final) = length (st_files st)
  /\ Forall2 (fun upload r =>
                plain_name (file_name (lu_file upload)) ->
                originalName r = file_name (lu_file upload))
             (st_files st) (st_results final).
Proof.
  intros Hfiles Hdelivered Hread Hpost Hseen.
  unfold POST_request in Hpost. rewrite Hread in Hpost.
  destruct (delivered_body st received Hdelivered)
    as (files' & location' & mode' & mood' & lens' & aspectRatio' & emphasis'
        & Hreceived & Hnames' & _).
  assert (Hsent : POST_files received = files').
  { rewrite Hreceived. unfold POST_files. rewrite files_prefix_files.
    cbn. apply app_nil_r. }
  assert (Hne : POST_files received <> []).
  { rewrite Hsent. inversion Hnames'; subst; [congruence | discriminate]. }
  destruct (POST_batch Number_toString JSON_parse X received log Hne)
    as (results & log'' & Hpost' & Hbatch).
  rewrite Hpost' in Hpost. injection Hpost as <- _.
  cbn in Hseen. injection Hseen as Hfetch.
  unfold handleProcess.
  destruct (st_files st) as [| upload uploads] eqn:Hqueue; [contradiction | ].
  cbv zeta. rewrite <- Hfetch. cbn.
  split; [reflexivity | ]. split; [reflexivity | ].
  pose proof (Batch_length _ _ _ _ _ _ _ _ Hbatch) as Hlen.
  pose proof (Batch_names _ _ _ _ _ _ _ _ Hbatch) as Hnames.
  rewrite Hsent in Hlen, Hnames.
  split; [rewrite Hlen; symmetry; exact (Forall2_length Hnames') | ].
  refine (Forall2_chain _ _ _ _ _ _ _ Hnames' Hnames).
  intros queued file' r Hkept Hreported Hplain.
  rewrite Hreported. unfold reported_name, JsString.or_else.
  rewrite (Hkept Hplain), (plain_name_truthy _ Hplain). reflexivity.
Qed.

End PageFacts.

Lemma sample_delivered :
  delivered (requestBody SamplePage.JSON_stringify SamplePage.page) SamplePage.received.
Proof.
  repeat constructor; intros _; reflexivity.
Defined.

Lemma requestBody_parameters_witness :
  POST_aspectRatio SamplePage.received = "3:2"
  /\ POST_mode SamplePage.received = "running"
  /\ length (POST_files SamplePage.received) = 2.
Proof.
  destruct (requestBody_parameters SamplePage.JSON_stringify SamplePage.page
              SamplePage.received sample_delivered)
    as (Hlen & _ & _ & Hmode & _ & _ & Hkept & _).
  split; [| split].
  - apply Hkept. cbn. auto.
  - exact (Hmode eq_refl).
  - exact Hlen.
Defined.

Lemma requestBody_emphasis_witness :
  POST_emphasis Sample.Number_toString SamplePage.JSON_parse
                (requestBody SamplePage.JSON_stringify SamplePage.page)
  = DEFAULT_EMPHASIS.
Proof.
  exact (requestBody_emphasis Sample.Number_toString SamplePage.JSON_parse
           SamplePage.JSON_stringify SamplePage.page eq_refl eq_refl).
Defined.

Lemma handleProcess_settles_witness :
  let final :=
    apply_updates
      (fst (handleProcess SamplePage.JSON_stringify SamplePage.page
                          (fun _ => RespondedNotOk (Some "No images provided."))))
      SamplePage.page in
  st_isProcessing final = false
  /\ st_error final = Some "No images provided."
  /\ st_results final = [].
Proof.
  assert (Hqueue : st_files SamplePage.page <> []) by discriminate.
  destruct (handleProcess_settles SamplePage.JSON_stringify
              SamplePage.page SamplePage.page
              (fun _ => RespondedNotOk (Some "No images provided.")) Hqueue)
    as (_ & Hidle & _).
  split; [exact Hidle | split; reflexivity].
Defined.

Lemma handleProcess_with_endpoint_witness :
  let final :=
    apply_updates
      (fst (handleProcess SamplePage.JSON_stringify SamplePage.page SamplePage.fetch))
      SamplePage.page in
  st_error final = None
  /\ length (st_results final) = 2
  /\ map originalName (st_results final) = ["hull.png"; "broken.png"]
  /\ map stage (st_results final) = ["completed"; "failed"].
Proof.
  assert (Hqueue : st_files SamplePage.page <> []) by discriminate.
  destruct (handleProcess_with_endpoint
              Sample.Number_toString SamplePage.JSON_parse SamplePage.JSON_stringify
              Sample.one_bad_file SamplePage.page SamplePage.page SamplePage.fetch
              SamplePage.request SamplePage.received
              [] _ _ Hqueue sample_delivered eq_refl eq_refl eq_refl)
    as (Herror & _ & Hlen & _).
  split; [exact Herror | split; [exact Hlen | split; reflexivity]].
Defined.

(** ** File sizes *)

(** The tenths shown for a size in KB are the nearest ones. *)
Lemma tenths_kilobytes (bytes : N) :
  (1024 * tenths bytes 1024 <= 10 * bytes + 512
   < 1024 * (tenths bytes 1024 + 1))%N.
Proof.
  unfold tenths. change (1024 / 2)%N with 512%N.
  pose proof (N.div_mod (10 * bytes + 512) 1024 ltac:(discriminate)) as Hdiv.
  pose proof (N.mod_lt (10 * bytes + 512) 1024 ltac:(discriminate)) as Hmod.
  set (q := ((10 * bytes + 512) / 1024)%N) in *.
  set (r := ((10 * bytes + 512) mod 1024)%N) in *.
  clearbody q r. lia.
Qed.

Lemma formatBytes_kilobytes_shown (bytes : N) :
  (1024 <= bytes < 1024 * 1024)%N ->
  formatBytes bytes = toFixed1 bytes 1024 ++ " KB".
Proof.
  intros [Hlow Hhigh]. unfold formatBytes.
  destruct (N.ltb_spec bytes 1024) as [Hsmall | _]; [lia | ].
  destruct (N.ltb_spec bytes (1024 * 1024)) as [_ | Hbig]; [reflexivity | lia].
Qed.

(** X19. A size from 1024 bytes up to, but not including, 1024 * 1024
    bytes is shown in KB with one decimal: the number of tenths shown is
    the one nearest to the size in KB (the larger on a tie), it is at
    least 1.0 and at most 1024.0. *)
Theorem formatBytes_kilobytes (bytes : N) :
  (1024 <= bytes < 1024 * 1024)%N ->
  exists n : N,
    formatBytes bytes = (decimal (n / 10) ++ "." ++ decimal (n mod 10)) ++ " KB"
    /\ (10 <= n <= 10240)%N
    /\ (1024 * n <= 10 * bytes + 512 < 1024 * (n + 1))%N.
Proof.
  intros Hrange. exists (tenths bytes 1024).
  split; [exact (formatBytes_kilobytes_shown bytes Hrange) | ].
  pose proof (tenths_kilobytes bytes) as Hnear.
  split; [lia | exact Hnear].
Qed.

Lemma formatBytes_kilobytes_witness :
  formatBytes 1536 = "1.5 KB".
Proof.
  destruct (formatBytes_kilobytes 1536 ltac:(lia)) as (n & Hshown & _ & Hnear).
  assert (n = 15%N) by lia. subst n. exact Hshown.
Defined.

(** X20. The last 51 sizes below 1024 * 1024 bytes are rounded up to
    ["1024.0 KB"]: the unit is chosen before the rounding. *)
Theorem formatBytes_below_megabyte (bytes : N) :
  (1048525 <= bytes < 1048576)%N ->
  formatBytes bytes = "1024.0 KB".
Proof.
  intros Hrange.
  rewrite (formatBytes_kilobytes_shown bytes ltac:(lia)).
  pose proof (tenths_kilobytes bytes) as Hnear.
  assert (Htenths : tenths bytes 1024 = 10240%N) by lia.
  unfold toFixed1. rewrite Htenths. reflexivity.
Qed.

Lemma formatBytes_below_megabyte_witness :
  formatBytes 1048575 = "1024.0 KB".
Proof.
  exact (formatBytes_below_megabyte 1048575 ltac:(lia)).
Defined.
